(** * koa-persist-query: persisted-query resolution and response caching

    A shallow embedding of the middleware in [src/unnamed/part_001] (the
    final variant of the persisted-query middleware), of [src/cache.ts] and
    of [src/error.ts], together with the properties of the fingerprint, the
    request normalizer, the bounded cache and the resolution pipeline.

    Conventions of the model:
    - a JavaScript value is JSON data, [undefined] or a built-in function
      (what a plain object inherits and the middleware can read from its
      map); numbers are the integer-valued ones; a [string] stands for the
      UTF-8 text of a JavaScript string;
    - a function that can throw returns a [result]; the middleware itself
      runs in a state-and-error monad over the world of a request: the Koa
      context, the module's cache, the clock and a log of the calls made
      on the cache and on the next handler;
    - [JSON.parse] and [JSON.stringify] are parameters of the middleware;
      SHA-256 is implemented after FIPS 180-4; the store of the [lru-cache]
      package, which the sources only import, is modelled from the
      specification. *)

From Stdlib Require Import ZArith List String Ascii Bool Lia DecimalString.
From stdpp Require Import base option gmap strings.
Import ListNotations.

Local Open Scope string_scope.
Local Open Scope list_scope.

Set Warnings "-register-all".

(* ===================================================================== *)
(** ** SHA-256 (FIPS 180-4), the digest behind [createHash("sha256")]     *)
(* ===================================================================== *)

Module SHA256.
Local Open Scope Z_scope.

(** 32-bit words are kept in [Z], reduced modulo [2^32] after every
    operation that can overflow. *)
Definition wrap (x : Z) : Z := x mod 4294967296.
Definition add32 (x y : Z) : Z := wrap (x + y).
Definition not32 (x : Z) : Z := Z.lxor x 4294967295.
Definition shr (n x : Z) : Z := Z.shiftr x n.
Definition rotr (n x : Z) : Z :=
  Z.lor (Z.shiftr x n) (wrap (Z.shiftl x (32 - n))).

Definition Ch (x y z : Z) : Z := Z.lxor (Z.land x y) (Z.land (not32 x) z).
Definition Maj (x y z : Z) : Z :=
  Z.lxor (Z.lxor (Z.land x y) (Z.land x z)) (Z.land y z).
Definition bsig0 (x : Z) : Z := Z.lxor (Z.lxor (rotr 2 x) (rotr 13 x)) (rotr 22 x).
Definition bsig1 (x : Z) : Z := Z.lxor (Z.lxor (rotr 6 x) (rotr 11 x)) (rotr 25 x).
Definition ssig0 (x : Z) : Z := Z.lxor (Z.lxor (rotr 7 x) (rotr 18 x)) (shr 3 x).
Definition ssig1 (x : Z) : Z := Z.lxor (Z.lxor (rotr 17 x) (rotr 19 x)) (shr 10 x).

(** The first sixty-four primes. *)
Definition primes : list Z :=
  [2; 3; 5; 7; 11; 13; 17; 19; 23; 29; 31; 37; 41; 43; 47; 53;
   59; 61; 67; 71; 73; 79; 83; 89; 97; 101; 103; 107; 109; 113; 127; 131;
   137; 139; 149; 151; 157; 163; 167; 173; 179; 181; 191; 193; 197; 199; 211; 223;
   227; 229; 233; 239; 241; 251; 257; 263; 269; 271; 277; 281; 283; 293; 307; 311].

(** Integer cube root, one bit at a time from bit [bits - 1] down. *)
Fixpoint cube_root (bits : nat) (n r : Z) : Z :=
  match bits with
  | O => r
  | S b =>
      let r' := r + 2 ^ Z.of_nat b in
      cube_root b n (if r' * r' * r' <=? n then r' else r)
  end.

(** The round constants: the first thirty-two bits of the fractional parts
    of the cube roots of the primes. *)
Definition K : list Z :=
  Eval vm_compute in map (fun p => wrap (cube_root 36 (p * 2 ^ 96) 0)) primes.

(** The initial hash value: the first thirty-two bits of the fractional
    parts of the square roots of the first eight primes. *)
Definition H_init : list Z :=
  Eval vm_compute in map (fun p => wrap (Z.sqrt (p * 2 ^ 64))) (firstn 8 primes).

(** Big-endian encoding of [x] on [n] bytes. *)
Fixpoint be_bytes (n : nat) (x : Z) : list Z :=
  match n with
  | O => []
  | S n' => (Z.shiftr x (8 * Z.of_nat n')) mod 256 :: be_bytes n' x
  end.

(** Padding: a [0x80] byte, zero bytes up to 56 modulo 64, then the bit
    length of the message on eight bytes. *)
Definition pad (msg : list Z) : list Z :=
  let len := Z.of_nat (length msg) in
  let zeros := Z.to_nat ((55 - len) mod 64) in
  msg ++ 128 :: repeat 0 zeros ++ be_bytes 8 (8 * len).

Fixpoint chunks {A} (size count : nat) (l : list A) : list (list A) :=
  match count with
  | O => []
  | S c => firstn size l :: chunks size c (skipn size l)
  end.

Definition be_word (bs : list Z) : Z :=
  fold_left (fun acc b => acc * 256 + b) bs 0.

Definition block_words (block : list Z) : list Z :=
  map be_word (chunks 4 16 block).

(** Message schedule: the sixteen block words extended to sixty-four. *)
Fixpoint extend (steps : nat) (w : list Z) : list Z :=
  match steps with
  | O => w
  | S s =>
      let t := length w in
      let at_back (k : nat) := nth (t - k)%nat w 0 in
      let next :=
        add32 (add32 (ssig1 (at_back 2%nat)) (at_back 7%nat))
              (add32 (ssig0 (at_back 15%nat)) (at_back 16%nat)) in
      extend s (w ++ [next])
  end.

Definition schedule (block : list Z) : list Z := extend 48 (block_words block).

Record regs := Regs { ra : Z; rb : Z; rc : Z; rd : Z; re : Z; rf : Z; rg : Z; rh : Z }.

Definition round (r : regs) (kw : Z * Z) : regs :=
  let '(k, w) := kw in
  let t1 := add32 (add32 (add32 (rh r) (bsig1 (re r))) (add32 (Ch (re r) (rf r) (rg r)) k)) w in
  let t2 := add32 (bsig0 (ra r)) (Maj (ra r) (rb r) (rc r)) in
  Regs (add32 t1 t2) (ra r) (rb r) (rc r) (add32 (rd r) t1) (re r) (rf r) (rg r).

Definition regs_of (h : list Z) : regs :=
  Regs (nth 0 h 0) (nth 1 h 0) (nth 2 h 0) (nth 3 h 0)
       (nth 4 h 0) (nth 5 h 0) (nth 6 h 0) (nth 7 h 0).

Definition list_of (r : regs) : list Z :=
  [ra r; rb r; rc r; rd r; re r; rf r; rg r; rh r].

Definition compress (h : list Z) (block : list Z) : list Z :=
  let r := fold_left round (combine K (schedule block)) (regs_of h) in
  map (fun p => add32 (fst p) (snd p)) (combine h (list_of r)).

(** The digest of a byte sequence: thirty-two bytes. *)
Definition hash (msg : list Z) : list Z :=
  let padded := pad msg in
  let blocks := chunks 64 (length padded / 64) padded in
  flat_map (be_bytes 4) (fold_left compress blocks H_init).
End SHA256.

(** Bytes of a string.  A [string] stands for the UTF-8 encoding of the
    JavaScript string it models, so that its UTF-8 bytes are its own
    characters and concatenation of strings is concatenation of bytes. *)
Definition utf8_bytes (s : string) : list Z :=
  map (fun a => Z.of_N (N_of_ascii a)) (list_ascii_of_string s).

Definition hex_digit (d : Z) : ascii :=
  nth (Z.to_nat d)
      (list_ascii_of_string "0123456789abcdef") "0"%char.

(** Lowercase hexadecimal text of a byte sequence, two digits per byte. *)
Fixpoint hex_lower (bs : list Z) : string :=
  match bs with
  | [] => ""
  | b :: rest =>
      String (hex_digit (b / 16)) (String (hex_digit (b mod 16)) (hex_lower rest))
  end.

(* ===================================================================== *)
(** ** JavaScript values                                                   *)
(* ===================================================================== *)

(** The values a parsed request can carry: JSON data plus [undefined].
    Numbers are the integer-valued ones: [VNum n] is the Number nearest to
    the integer [n], the one [JSON.parse] reads from the digits of [n].  An
    object keeps its own properties in insertion order; an array keeps its
    elements and, next to them, the named properties assigned to it.

    A built-in function is the one value that is not data.  No request
    carries it: it is what the middleware reads from its map at a key that
    the map inherits from [Object.prototype], and it then sits in the
    [query] of the body handed to the next handler.  It is kept by its name,
    with the properties assigned to it; the model stores it and hands it on
    and never calls it. *)
Inductive value : Type :=
| VUndefined
| VNull
| VBool (b : bool)
| VNum (n : Z)
| VStr (s : string)
| VArr (elems : list value) (named : list (string * value))
| VObj (props : list (string * value))
| VFunction (name : string) (named : list (string * value)).

(** [ToBoolean]: what [!v], [v && ...] and [v || ...] test. *)
Definition truthy (v : value) : bool :=
  match v with
  | VUndefined | VNull => false
  | VBool b => b
  | VNum n => negb (n =? 0)%Z
  | VStr s => negb (s =? "")
  | VArr _ _ | VObj _ | VFunction _ _ => true
  end.

(** [typeof v === "string"]. *)
Definition is_string (v : value) : bool :=
  match v with VStr _ => true | _ => false end.

(** lodash [_.isObject]: non-null values of type object (or function). *)
Definition isObject (v : value) : bool :=
  match v with VArr _ _ | VObj _ | VFunction _ _ => true | _ => false end.

(** Strict equality with a string literal, [v === "lit"]. *)
Definition strict_eq_str (v : value) (lit : string) : bool :=
  match v with VStr s => s =? lit | _ => false end.

Fixpoint assoc_get {A} (k : string) (l : list (string * A)) : option A :=
  match l with
  | [] => None
  | (k', x) :: rest => if k' =? k then Some x else assoc_get k rest
  end.

(** Assignment to a property: an existing key keeps its place, a new key
    goes last. *)
Fixpoint assoc_set {A} (k : string) (x : A) (l : list (string * A)) : list (string * A) :=
  match l with
  | [] => [(k, x)]
  | (k', y) :: rest =>
      if k' =? k then (k', x) :: rest else (k', y) :: assoc_set k x rest
  end.

Definition or_undefined (o : option value) : value :=
  match o with Some v => v | None => VUndefined end.

Definition decimal_of_nat (n : nat) : string := NilZero.string_of_uint (Nat.to_uint n).
Definition decimal_of_Z (n : Z) : string := NilZero.string_of_int (Z.to_int n).

(** [Number::toString] for the integer-valued Numbers. *)
Module Number.
Local Open Scope Z_scope.

(** The double nearest to a positive integer, ties going to the even
    significand of 53 bits; [None] past the largest double, where the
    Number is [Infinity]. *)
Definition nearest (n : Z) : option Z :=
  let b := Z.log2 n in
  if b <? 53 then Some n
  else
    let sh := b - 52 in
    let q := Z.shiftr n sh in
    let rest := n - Z.shiftl q sh in
    let half := Z.shiftl 1 (sh - 1) in
    let q' := if (half <? rest) || ((rest =? half) && Z.odd q) then q + 1 else q in
    if 1024 <=? Z.log2 (Z.shiftl q' sh) then None else Some (Z.shiftl q' sh).

(** Whether the decimal [c] reads back as the double [m >= 2^53]: [c] lies
    within half a unit in the last place of [m] (the unit below a power of
    two is half the unit above it), the bounds included when the
    significand of [m] is even. *)
Definition rounds_to (m c : Z) : bool :=
  let sh := Z.log2 m - 52 in
  let q := Z.shiftr m sh in
  let above := Z.shiftl 1 sh in
  let below := if q =? Z.shiftl 1 52 then Z.shiftl 1 (sh - 1) else above in
  if Z.even q then (2 * m - below <=? 2 * c) && (2 * c <=? 2 * m + above)
  else (2 * m - below <? 2 * c) && (2 * c <? 2 * m + above).

(** The decimal with the fewest significant digits that reads back as
    [m]: a multiple of the largest power of ten [10^p] that does, the one
    closest to [m] when there are two. *)
Fixpoint shortest (p : nat) (m : Z) : Z :=
  let unit := 10 ^ Z.of_nat p in
  let lo := (m / unit) * unit in
  let hi := lo + unit in
  let ok_lo := (0 <? lo) && rounds_to m lo in
  let ok_hi := rounds_to m hi in
  let pick :=
    if ok_lo && ok_hi then
      Some (if m - lo <? hi - m then lo
            else if hi - m <? m - lo then hi
            else if Z.even (lo / unit) then lo else hi)
    else if ok_lo then Some lo
    else if ok_hi then Some hi
    else None in
  match pick, p with
  | Some c, _ => c
  | None, O => m
  | None, S p' => shortest p' m
  end.

Fixpoint strip_zeros (fuel : nat) (c : Z) : Z :=
  match fuel with
  | O => c
  | S fuel' => if c mod 10 =? 0 then strip_zeros fuel' (c / 10) else c
  end.

Definition digits (c : Z) : nat := String.length (decimal_of_Z c).

(** The exponent form [d.ddde+x] of a decimal [c >= 10^21]. *)
Definition exponent_form (c : Z) : string :=
  let s := decimal_of_Z (strip_zeros (digits c) c) in
  let e := decimal_of_nat (digits c - 1) in
  match s with
  | String d "" => String d ("e+" ++ e)
  | String d rest => String d ("." ++ rest ++ "e+" ++ e)
  | "" => ""
  end%string.

Definition toString_pos (n : Z) : string :=
  match nearest n with
  | None => "Infinity"
  | Some m =>
      if Z.log2 m <? 53 then decimal_of_Z m
      else
        let c := shortest (digits m) m in
        if c <? 10 ^ 21 then decimal_of_Z c else exponent_form c
  end.

(** The text of the Number nearest to the integer [n]: all its digits up
    to [2^53], the shortest decimal that reads back as the same Number
    beyond, in exponent form from [10^21] on. *)
Definition toString (n : Z) : string :=
  if n =? 0 then "0"
  else if n <? 0 then ("-" ++ toString_pos (- n))%string
  else toString_pos n.

End Number.

Fixpoint join (sep : string) (parts : list string) : string :=
  match parts with
  | [] => ""
  | [p] => p
  | p :: rest => p ++ sep ++ join sep rest
  end.

Fixpoint sequence {A} (l : list (option A)) : option (list A) :=
  match l with
  | [] => Some []
  | None :: _ => None
  | Some x :: rest =>
      match sequence rest with Some xs => Some (x :: xs) | None => None end
  end.

(** [ToString], as applied by [x + ""] and by a computed property key
    [m[x]].  [None] is the [TypeError] raised for an object that cannot be
    converted to a primitive: data whose own [toString] property shadows
    the inherited method with something that cannot be called.  A built-in
    function reads as its source text.  (A function in the place of
    [toString], which JavaScript would call, does not arise: the middleware
    puts a function nowhere but in the [query] of the body it hands on.) *)
Fixpoint ToString (v : value) : option string :=
  match v with
  | VUndefined => Some "undefined"
  | VNull => Some "null"
  | VBool true => Some "true"
  | VBool false => Some "false"
  | VNum n => Some (Number.toString n)
  | VStr s => Some s
  | VArr elems named =>
      match assoc_get "toString" named, assoc_get "join" named with
      | Some _, _ => None
      | None, Some _ => Some "[object Array]"
      | None, None =>
          option_map (join ",")
            (sequence (map (fun e => match e with
                                     | VUndefined | VNull => Some ""
                                     | _ => ToString e
                                     end) elems))
      end
  | VObj props =>
      match assoc_get "toString" props with
      | None => Some "[object Object]"
      | Some _ => None
      end
  | VFunction name named =>
      match assoc_get "toString" named with
      | None => Some ("function " ++ name ++ "() { [native code] }")%string
      | Some _ => None
      end
  end.

(** [Object.keys(v)]: the own enumerable property names.  [None] is the
    [TypeError] raised for [undefined] and [null]; a string has one index
    key per character (nonempty exactly when the string is), a number or
    a boolean has none. *)
Definition Object_keys (v : value) : option (list string) :=
  match v with
  | VUndefined | VNull => None
  | VBool _ | VNum _ => Some []
  | VStr s => Some (map decimal_of_nat (seq 0 (String.length s)))
  | VArr elems named => Some (map decimal_of_nat (seq 0 (length elems)) ++ map fst named)
  | VObj props => Some (map fst props)
  | VFunction _ named => Some (map fst named)
  end.

(** Property read [v.name], for the names the middleware reads ([query],
    [extensions], [variables], [operationName], [id], [kind]): none of them
    is defined on a built-in prototype or function, so only own properties
    count.
    [None] is the [TypeError] raised when [v] is [undefined] or [null]. *)
Definition get_prop (v : value) (name : string) : option value :=
  match v with
  | VUndefined | VNull => None
  | VBool _ | VNum _ | VStr _ => Some VUndefined
  | VArr _ named => Some (or_undefined (assoc_get name named))
  | VObj props => Some (or_undefined (assoc_get name props))
  | VFunction _ named => Some (or_undefined (assoc_get name named))
  end.

(** Property write [v.name = x] in strict-mode code.  [None] is the
    [TypeError] raised when [v] is not an object. *)
Definition set_prop (v : value) (name : string) (x : value) : option value :=
  match v with
  | VArr elems named => Some (VArr elems (assoc_set name x named))
  | VObj props => Some (VObj (assoc_set name x props))
  | VFunction f named => Some (VFunction f (assoc_set name x named))
  | _ => None
  end.

(* ===================================================================== *)
(** ** Errors ([src/error.ts])                                             *)
(* ===================================================================== *)

Record HttpQueryError := mkHttpQueryError {
  statusCode : Z;
  message : string;
  isGraphQLError : bool;
  headers : option (list (string * string))
}.

(** The constructor, with its default for [isGraphQLError]. *)
Definition new_HttpQueryError (statusCode : Z) (message : string)
    (isGraphQLError : option bool) (headers : option (list (string * string)))
  : HttpQueryError :=
  mkHttpQueryError statusCode message (default false isGraphQLError) headers.

(** What a function of the middleware can throw. *)
Inductive exn : Type :=
| EHttpQuery (e : HttpQueryError)
| ETypeError
| EError (msg : string)
| ERejected (reason : value).

Inductive result (A : Type) : Type :=
| Ok (a : A)
| Throw (e : exn).
Arguments Ok {A} a.
Arguments Throw {A} e.

#[global] Instance result_ret : MRet result := fun A a => Ok a.
#[global] Instance result_bind : MBind result := fun A B f r =>
  match r with
  | Ok a => f a
  | Throw e => Throw e
  end.

(** A built-in that raises [TypeError] where the model returns [None]. *)
Definition or_TypeError {A} (o : option A) : result A :=
  match o with Some a => Ok a | None => Throw ETypeError end.

(* ===================================================================== *)
(** ** Request normalizer: payload selection and method validation        *)
(* ===================================================================== *)

(** The part of a Koa context the middleware touches.  [ctx.path] is
    [ctx.request.path], [ctx.body] is [ctx.response.body], and
    [ctx.req.body] is the body a multipart parser leaves on the raw
    request. *)
Record Context := mkContext {
  ctx_path : string;
  request_method : string;
  request_body : value;
  request_query : value;
  req_body : value;
  response_body : value;
  response_type : string
}.

(** The context after [ctx.request.body] was updated in place to [b]. *)
Definition with_request_body (c : Context) (b : value) : Context :=
  mkContext (ctx_path c) (request_method c) b (request_query c) (req_body c)
            (response_body c) (response_type c).

(** [ctx.response.body = b].  (Koa also derives the status and the
    headers of the response from the value; the middleware returns right
    after this assignment.) *)
Definition with_response_body (c : Context) (b : value) : Context :=
  mkContext (ctx_path c) (request_method c) (request_body c) (request_query c)
            (req_body c) b (response_type c).

Definition parseQueryAndMethod (ctx : Context) : value * string :=
  let query :=
    if request_method ctx =? "POST"
    then (if truthy (request_body ctx) then request_body ctx else req_body ctx)
    else request_query ctx in
  (query, request_method ctx).

(** [!query || Object.keys(query).length === 0] *)
Definition missing_or_empty (query : value) : result bool :=
  if negb (truthy query) then Ok true
  else
    keys ← or_TypeError (Object_keys query);
    Ok (length keys =? 0)%nat.

Definition validateRequestPayload (request : value * string) : result value :=
  let '(query, method) := request in
  if method =? "POST" then
    bad ← missing_or_empty query;
    if bad : bool then
      Throw (EHttpQuery (new_HttpQueryError 500
        "POST body missing. Did you forget use body-parser middleware?" None None))
    else Ok query
  else if method =? "GET" then
    bad ← missing_or_empty query;
    if bad : bool then
      Throw (EHttpQuery (new_HttpQueryError 400 "GET query missing." None None))
    else Ok query
  else
    Throw (EHttpQuery (new_HttpQueryError 405
      "Apollo Server supports only GET/POST requests."
      (Some false) (Some [("Allow", "GET, POST")]))).

(* ===================================================================== *)
(** ** The bounded response cache ([src/cache.ts])                         *)
(* ===================================================================== *)

(** The store behind [LRUCache] is the [lru-cache] package, which is not
    part of the sources; it is modelled from section 4.2 of the
    specification.  Time is the millisecond clock, read at every call. *)
Module LRU.

(** Modelled from the spec: an entry of the [lru-cache] store (the package
    is not under src/): a fingerprint key, its opaque value and the
    insertion time its time-to-live counts from. *)
Record entry := mkEntry { key : string; val : value; stamp : Z }.

(** Modelled from the spec: the [lru-cache] store (not under src/), with its
    capacity bound, its age bound and its entries, most recently used
    first.  No capacity configured means no bound on the size. *)
Record Cache := mkCache {
  capacity : option nat;
  ttl : Z;
  entries : list entry
}.

(** Modelled from the spec: the [lru-cache] constructor [new LRU({max,
    maxAge})] (not under src/): an empty store with the given bounds. *)
Definition create (max : option nat) (maxAge : Z) : Cache := mkCache max maxAge [].

(** Modelled from the spec: the [lru-cache] store (not under src/) with
    its entries replaced; the bounds are fixed at construction. *)
Definition with_entries (c : Cache) (es : list entry) : Cache :=
  mkCache (capacity c) (ttl c) es.

(** Modelled from the spec: the entry of the [lru-cache] store (not under
    src/) associated with a key, if any. *)
Definition lookup (k : string) (es : list entry) : option entry :=
  List.find (fun e => key e =? k) es.

(** Modelled from the spec: removal of a key from the [lru-cache] store
    (not under src/), by eviction, expiry or overwriting. *)
Definition remove (k : string) (es : list entry) : list entry :=
  List.filter (fun e => negb (key e =? k)) es.

(** Modelled from the spec: the age bound of [lru-cache] (not under src/):
    an entry is expired once more than the time-to-live has elapsed since
    its insertion. *)
Definition expired (now : Z) (c : Cache) (e : entry) : bool :=
  (ttl c <? now - stamp e)%Z.

(** Modelled from the spec: [has] of [lru-cache] (not under src/): an
    expired entry is treated as absent on lookup. *)
Definition has (now : Z) (c : Cache) (k : string) : bool :=
  match lookup k (entries c) with
  | Some e => negb (expired now c e)
  | None => false
  end.

(** Modelled from the spec: [get] of [lru-cache] (not under src/): the value
    or absent ([undefined]); an expired entry is treated as absent and
    purged (lazily, by the lookup that finds it); a live one becomes the
    most recently used. *)
Definition get (now : Z) (c : Cache) (k : string) : value * Cache :=
  match lookup k (entries c) with
  | None => (VUndefined, c)
  | Some e =>
      if expired now c e
      then (VUndefined, with_entries c (remove k (entries c)))
      else (val e, with_entries c (e :: remove k (entries c)))
  end.

(** Modelled from the spec: the capacity bound of [lru-cache] (not under
    src/): the store is full when one more entry would exceed it. *)
Definition full (c : Cache) : bool :=
  match capacity c with
  | Some n => (n <=? length (entries c))%nat
  | None => false
  end.

(** Modelled from the spec: [set] of [lru-cache] (not under src/): an
    identical key is overwritten; on insert beyond capacity the
    least-recently-used entry (the last one) is evicted before inserting.
    The new entry is the most recently used and its time-to-live counts
    from now. *)
Definition set (now : Z) (c : Cache) (k : string) (v : value) : bool * Cache :=
  match lookup k (entries c) with
  | Some _ =>
      (true, with_entries c (mkEntry k v now :: remove k (entries c)))
  | None =>
      let kept := if full c then removelast (entries c) else entries c in
      (true, with_entries c (mkEntry k v now :: kept))
  end.

(** Modelled from the spec: the number of entries the [lru-cache] store
    (not under src/) holds. *)
Definition size (c : Cache) : nat := length (entries c).

End LRU.

(** [LRU.Options]: the options of the store. *)
Record Options := mkOptions { max : option nat; maxAge : option Z }.

(** [class LRUCache]: a private [cache] field holding the store. *)
Record LRUCache := mkLRUCache { cache : LRU.Cache }.

(** [private constructor({ max, maxAge = 1000 * 60 * 60 })] *)
Definition new_LRUCache (o : Options) : LRUCache :=
  mkLRUCache (LRU.create (max o) (default (1000 * 60 * 60)%Z (maxAge o))).

Definition getInstance (options : option Options) : LRUCache :=
  let options :=
    match options with
    | None => mkOptions (Some 100%nat) (Some (1000 * 60 * 60)%Z)
    | Some o => o
    end in
  new_LRUCache options.

Definition LRUCache_get (now : Z) (this : LRUCache) (key : string) : value * LRUCache :=
  let '(v, c) := LRU.get now (cache this) key in (v, mkLRUCache c).

Definition LRUCache_set (now : Z) (this : LRUCache) (key : string) (v : value)
  : bool * LRUCache :=
  let '(b, c) := LRU.set now (cache this) key v in (b, mkLRUCache c).

Definition LRUCache_has (now : Z) (this : LRUCache) (key : string) : bool :=
  LRU.has now (cache this) key.

Definition getCache (options : option Options) : LRUCache := getInstance options.

(* ===================================================================== *)
(** ** Node's [crypto] hash object, for [createHash("sha256")]             *)
(* ===================================================================== *)

(** A SHA-256 hash object: the bytes fed to it so far. *)
Record Hash := mkHash { fed : list Z }.

(** [createHash("sha256")] *)
Definition createHash_sha256 : Hash := mkHash [].

(** [hash.update(data)] with a string: its UTF-8 bytes are appended. *)
Definition Hash_update (h : Hash) (data : string) : Hash :=
  mkHash (fed h ++ utf8_bytes data).

(** [hash.digest("hex")] *)
Definition Hash_digest_hex (h : Hash) : string := hex_lower (SHA256.hash (fed h)).

(* ===================================================================== *)
(** ** The world a request runs in                                         *)
(* ===================================================================== *)

(** What the middleware does to its collaborators, in order. *)
Inductive event : Type :=
| EvCacheGet (key : string)
| EvCacheSet (key : string) (v : value)
| EvNext (ctx : Context).

(** The Koa context of the request, the module's cache, the clock and the
    log of what happened so far. *)
Record World := mkWorld {
  w_ctx : Context;
  w_cache : LRUCache;
  w_now : Z;
  w_trace : list event
}.

(** A computation that reads and updates the world and returns or throws. *)
Definition M (A : Type) : Type := World -> result A * World.

#[global] Instance M_ret : MRet M := fun A a w => (Ok a, w).
#[global] Instance M_bind : MBind M := fun A B f m w =>
  match m w with
  | (Ok a, w') => f a w'
  | (Throw e, w') => (Throw e, w')
  end.

(** A computation that only returns or throws. *)
Definition lift {A} (r : result A) : M A := fun w => (r, w).

Definition get_ctx : M Context := fun w => (Ok (w_ctx w), w).

Definition put_ctx (c : Context) : M unit := fun w =>
  (Ok tt, mkWorld c (w_cache w) (w_now w) (w_trace w)).

Definition log (ev : event) (w : World) : World :=
  mkWorld (w_ctx w) (w_cache w) (w_now w) (w_trace w ++ [ev]).

(** [cache.get(key)] on the module's cache. *)
Definition cache_get (key : string) : M value := fun w =>
  let '(v, c) := LRUCache_get (w_now w) (w_cache w) key in
  (Ok v, log (EvCacheGet key) (mkWorld (w_ctx w) c (w_now w) (w_trace w))).

(** [cache.set(key, v)] on the module's cache. *)
Definition cache_set (key : string) (v : value) : M bool := fun w =>
  let '(b, c) := LRUCache_set (w_now w) (w_cache w) key v in
  (Ok b, log (EvCacheSet key v) (mkWorld (w_ctx w) c (w_now w) (w_trace w))).

(** What awaiting the next handler amounts to: the context as the handler
    leaves it, the time it took, and the error it rejected with, if any. *)
Record Outcome := mkOutcome {
  out_ctx : Context;
  out_elapsed : Z;
  out_error : option exn
}.

(** The rest of the middleware chain (the GraphQL execution layer).  It
    sees the context; the cache is private to this module. *)
Definition Handler : Type := Context -> Outcome.

(** [await next()] *)
Definition call_next (next : Handler) : M unit := fun w =>
  let o := next (w_ctx w) in
  let w' := mkWorld (out_ctx o) (w_cache w) (w_now w + out_elapsed o)
                    (w_trace w ++ [EvNext (w_ctx w)]) in
  match out_error o with
  | None => (Ok tt, w')
  | Some e => (Throw e, w')
  end.

(* ===================================================================== *)
(** ** The middleware ([src/unnamed/part_001])                             *)
(* ===================================================================== *)

Record PersistCacheConfig := mkConfig {
  cfg_path : option string;
  cfg_map : gmap string string
}.

Record GraphQLRequest := mkGraphQLRequest {
  query : value;
  operationName : value;
  variables : value;
  extensions : value;
  persistHash : value
}.

(** The names of the functions every plain object inherits from
    [Object.prototype], other than [constructor]. *)
Definition Object_prototype_methods : list string :=
  ["toString"; "toLocaleString"; "valueOf"; "hasOwnProperty"; "isPrototypeOf";
   "propertyIsEnumerable"; "__defineGetter__"; "__defineSetter__";
   "__lookupGetter__"; "__lookupSetter__"].

(** What a plain object inherits under the name [k]: [constructor] is the
    function [Object], [__proto__] reads the prototype itself (an object
    without enumerable properties of its own), the other names are the
    methods of [Object.prototype]. *)
Definition Object_prototype (k : string) : option value :=
  if k =? "constructor" then Some (VFunction "Object" [])
  else if k =? "__proto__" then Some (VObj [])
  else if existsb (String.eqb k) Object_prototype_methods then Some (VFunction k [])
  else None.

(** The property read [persistMap[k]].  The map is a plain object (an
    object literal, parsed JSON, what lodash's [invert] returns): the read
    finds the map's own entry, or else the member inherited from
    [Object.prototype], and is [undefined] for any other key. *)
Definition persistMap_read (persistMap : gmap string string) (k : string) : value :=
  match persistMap !! k with
  | Some q => VStr q
  | None => or_undefined (Object_prototype k)
  end.

(** [persistMap[persistHash]]: the property key is the string form of
    [persistHash]. *)
Definition persistMap_at (persistMap : gmap string string) (persistHash : value)
  : result value :=
  k ← or_TypeError (ToString persistHash);
  Ok (persistMap_read persistMap k).

Definition shouldHandleByPath (path pattern : string) : bool := pattern =? path.

Definition conditionDo {A} (condition : bool) (operation elseOperation : M A) : M A :=
  if condition then operation else elseOperation.

Definition isPersistCacheConfigValid (config : option PersistCacheConfig) : bool :=
  match config with Some _ => true | None => false end.

Definition getResponseFromCache (key : string) : M value :=
  v ← cache_get key;
  mret (if truthy v then v else VUndefined).

Definition cacheAfterExecutionGraphQL (persistHash : value) (requestHash : string)
  : M unit :=
  ctx ← get_ctx;
  if truthy persistHash && (response_type ctx =? "application/json") then
    _ ← cache_set requestHash (response_body ctx);
    mret tt
  else mret tt.

Section Middleware.

(** [JSON.parse] and [JSON.stringify]; [None] is the exception either one
    throws.  (For a function, which has no JSON text and which no request
    carries, [JSON.stringify] returns [undefined]: [JSON_stringify] is then
    the text that the concatenation in [generateRequestHash] makes of it.) *)
Variable JSON_parse : string -> option value.
Variable JSON_stringify : value -> option string.

(** [if (typeof x === "string") { try { x = JSON.parse(x) } catch { throw
    new HttpQueryError(400, msg) } }] *)
Definition parse_if_string (x : value) (msg : string) : result value :=
  match x with
  | VStr s =>
      match JSON_parse s with
      | Some v => Ok v
      | None => Throw (EHttpQuery (new_HttpQueryError 400 msg None None))
      end
  | _ => Ok x
  end.

Definition parseGraphQLRequestFromPayload (requestParams : value)
  : result GraphQLRequest :=
  queryString ← or_TypeError (get_prop requestParams "query");
  extensions ← or_TypeError (get_prop requestParams "extensions");
  extensions ← parse_if_string extensions "Extensions are invalid JSON.";
  _ ← (if truthy queryString && negb (is_string queryString) then
         kind ← or_TypeError (get_prop queryString "kind");
         if strict_eq_str kind "Document" then
           Throw (EHttpQuery (new_HttpQueryError 400
             ("GraphQL queries must be strings. It looks like you're sending the " ++
              "internal graphql-js representation of a parsed query in your " ++
              "request instead of a request in the GraphQL query language. You " ++
              "can convert an AST to a string using the `print` function from " ++
              "`graphql`, or use a client like `apollo-client` which converts " ++
              "the internal representation to a string for you.") None None))
         else
           Throw (EHttpQuery (new_HttpQueryError 400
             "GraphQL queries must be strings." None None))
       else Ok tt);
  operationName ← or_TypeError (get_prop requestParams "operationName");
  variables ← or_TypeError (get_prop requestParams "variables");
  variables ← parse_if_string variables "Variables are invalid JSON.";
  persistHash ← or_TypeError (get_prop requestParams "id");
  Ok (mkGraphQLRequest queryString operationName variables extensions persistHash).

Definition parseGraphQLRequest (ctx : Context) : result GraphQLRequest :=
  validateRequestPayload (parseQueryAndMethod ctx) ≫= parseGraphQLRequestFromPayload.

Definition generateRequestHash (queryHashId queryVariables : value) : result string :=
  variableStirng ←
    (if negb (truthy queryVariables) || negb (isObject queryVariables) then Ok ""
     else match JSON_stringify queryVariables with
          | Some s => Ok s
          | None =>
              Throw (EHttpQuery (new_HttpQueryError 400
                "[persist-query-middleware] Variables are invalid JSON" None None))
          end);
  id ← or_TypeError (ToString queryHashId);
  Ok (Hash_digest_hex (Hash_update createHash_sha256 (id ++ variableStirng))).

Definition getQueryFromHash (next : Handler) (persistMap : gmap string string)
  : M unit :=
  ctx ← get_ctx;
  r ← lift (parseGraphQLRequest ctx);
  requestHash ← lift (generateRequestHash (persistHash r) (variables r));
  data ← getResponseFromCache requestHash;
  if truthy data then
    put_ctx (with_response_body ctx data)
  else
    q ← lift (persistMap_at persistMap (persistHash r));
    body ← lift (or_TypeError (set_prop (request_body ctx) "query" q));
    _ ← put_ctx (with_request_body ctx body);
    _ ← call_next next;
    cacheAfterExecutionGraphQL (persistHash r) requestHash.

(** The middleware [persistCache] returned by [persistCacheGenerate]. *)
Definition persistCache (path : string) (map : gmap string string) (next : Handler)
  : M unit :=
  ctx ← get_ctx;
  conditionDo (shouldHandleByPath (ctx_path ctx) path)
              (getQueryFromHash next map)
              (call_next next).

Definition persistCacheGenerate (config : option PersistCacheConfig)
  : result (Handler -> M unit) :=
  if negb (isPersistCacheConfigValid config) then
    Throw (EError "[persist-query-middleware] Invalid config for middleware")
  else
    let path := default "/graphql" (config ≫= cfg_path) in
    let map := from_option cfg_map ∅ config in
    Ok (persistCache path map).

End Middleware.

(* ===================================================================== *)
(** ** [generateRequestHash] over the hash objects of [crypto]             *)
(* ===================================================================== *)

(** The same function, with the state it works on spelled out.  A hash
    object of Node's [crypto] module is mutable: [update] feeds it,
    [digest] finishes it, and a finished object refuses both calls.  The
    objects live in a store, by address; [createHash] allocates one. *)
Module Crypto.

Record HashObject := mkHashObject { content : Hash; finished : bool }.

Definition Store := list HashObject.

(** A call that works on the store. *)
Definition Op (A : Type) : Type := Store -> result A * Store.

Definition bind {A B} (m : Op A) (k : A -> Op B) : Op B := fun store =>
  match m store with
  | (Ok a, store') => k a store'
  | (Throw e, store') => (Throw e, store')
  end.

Definition pure {A} (r : result A) : Op A := fun store => (r, store).

(** [createHash("sha256")]: a new object, at a new address. *)
Definition createHash : Op nat := fun store =>
  (Ok (length store), store ++ [mkHashObject createHash_sha256 false]).

(** [hash.update(data)]: feeds the object and returns it. *)
Definition update (address : nat) (data : string) : Op nat := fun store =>
  match store !! address with
  | Some (mkHashObject h false) =>
      (Ok address, <[address := mkHashObject (Hash_update h data) false]> store)
  | Some (mkHashObject _ true) => (Throw (EError "Digest already called"), store)
  | None => (Throw ETypeError, store)
  end.

(** [hash.digest("hex")]: the digest of what was fed; the object is
    finished. *)
Definition digest_hex (address : nat) : Op string := fun store =>
  match store !! address with
  | Some (mkHashObject h false) =>
      (Ok (Hash_digest_hex h), <[address := mkHashObject h true]> store)
  | Some (mkHashObject _ true) => (Throw (EError "Digest already called"), store)
  | None => (Throw ETypeError, store)
  end.

Section Fingerprint.

Variable JSON_stringify : value -> option string.

(** [generateRequestHash]: the variables are serialized first, then the
    hash object is created, the concatenation is evaluated and fed to it,
    and the digest is taken. *)
Definition generateRequestHash (queryHashId queryVariables : value) : Op string :=
  bind (pure (if negb (truthy queryVariables) || negb (isObject queryVariables)
              then Ok ""
              else match JSON_stringify queryVariables with
                   | Some s => Ok s
                   | None =>
                       Throw (EHttpQuery (new_HttpQueryError 400
                         "[persist-query-middleware] Variables are invalid JSON"
                         None None))
                   end))
       (fun variableStirng =>
  bind createHash (fun hash =>
  bind (pure (or_TypeError (ToString queryHashId))) (fun id =>
  bind (update hash (id ++ variableStirng)) (fun hash =>
  digest_hex hash)))).

End Fingerprint.

End Crypto.

(* ===================================================================== *)
(** ** The variant of the middleware in [src/index.ts]                     *)
(* ===================================================================== *)

(** The variant that fingerprints a fixed id.  Its functions have the
    names of the final variant's; [conditionDo] and [shouldHandleByPath]
    are the same.  Only the handler of the configured path is embedded:
    the other branch, [execDirectly], calls the next handler without
    awaiting it. *)
Module Index.

Section Variant.

Variable JSON_stringify : value -> option string.

(** [_.has("request.body")(ctx)]: the context has a parsed body.  A body
    parser sets the property to an object; without one it is not there. *)
Definition has_request_body (ctx : Context) : bool :=
  match request_body ctx with
  | VUndefined => false
  | _ => true
  end.

(** [generateRequestHash] without the [try]: what [JSON.stringify] throws
    (a [TypeError]) propagates. *)
Definition generateRequestHash (queryHashId queryVariables : value) : result string :=
  variableStirng ←
    (if negb (truthy queryVariables) || negb (isObject queryVariables) then Ok ""
     else or_TypeError (JSON_stringify queryVariables));
  id ← or_TypeError (ToString queryHashId);
  Ok (Hash_digest_hex (Hash_update createHash_sha256 (id ++ variableStirng))).

(** [cache.has(key)] on the module's cache. *)
Definition cache_has (key : string) : M bool := fun w =>
  (Ok (LRUCache_has (w_now w) (w_cache w) key), w).

(** The end of [getQueryFromHash], from [await next()] on.  [ids] is what
    the first part assigned to [queryHashId] and [requstHash], if it
    assigned them at all. *)
Definition execute_and_cache (next : Handler) (ids : option (value * string)) : M unit :=
  _ ← call_next next;
  ctx ← get_ctx;
  match ids with
  | Some (queryHashId, requstHash) =>
      if truthy queryHashId && (response_type ctx =? "application/json") then
        _ ← cache_set requstHash (response_body ctx);
        mret tt
      else mret tt
  | None => mret tt
  end.

Definition getQueryFromHash (next : Handler) (persistMap : gmap string string)
  : M unit :=
  ctx ← get_ctx;
  if has_request_body ctx then
    let queryHashId := VNum 0 in
    let queryVariables := VUndefined in
    requstHash ← lift (generateRequestHash queryHashId queryVariables);
    cached ← cache_has requstHash;
    if cached : bool then
      data ← cache_get requstHash;
      put_ctx (with_response_body ctx data)
    else
      q ← lift (persistMap_at persistMap queryHashId);
      body ← lift (or_TypeError (set_prop (request_body ctx) "query" q));
      _ ← put_ctx (with_request_body ctx body);
      execute_and_cache next (Some (queryHashId, requstHash))
  else
    execute_and_cache next None.

(** [validation] *)
Definition validation (config : option PersistCacheConfig) : bool :=
  match config with Some _ => true | None => false end.

End Variant.

End Index.

(* ===================================================================== *)
(** ** A JSON engine for the examples                                      *)
(* ===================================================================== *)

(** A serializer and a reader for the values above, to run the middleware
    on concrete requests.  The reader covers the JSON texts without string
    escapes, fractions and exponents, and rejects every other text. *)
Module RefJSON.

Definition escape_char (c : ascii) : string :=
  let n := nat_of_ascii c in
  if (n =? 34)%nat then String "\" (String "034" "")
  else if (n =? 92)%nat then "\\"
  else if (n =? 8)%nat then "\b"
  else if (n =? 9)%nat then "\t"
  else if (n =? 10)%nat then "\n"
  else if (n =? 12)%nat then "\f"
  else if (n =? 13)%nat then "\r"
  else if (n <? 32)%nat then
    ("\u00" ++ String (hex_digit (Z.of_nat n / 16))
                 (String (hex_digit (Z.of_nat n mod 16)) ""))%string
  else String c "".

Definition quote (s : string) : string :=
  String "034"
    (String.concat "" (map escape_char (list_ascii_of_string s)) ++ String "034" "")%string.

(** The JSON text of a value in element position ([undefined] and a
    function read [null] there, and so does [Infinity]); an object leaves
    out the properties that hold [undefined] or a function. *)
Fixpoint text (v : value) : string :=
  match v with
  | VUndefined | VNull => "null"
  | VBool true => "true"
  | VBool false => "false"
  | VNum n => match Number.toString n with
              | "Infinity" | "-Infinity" => "null"
              | digits => digits
              end
  | VStr s => quote s
  | VArr elems _ => ("[" ++ join "," (map text elems) ++ "]")%string
  | VObj props =>
      ("{" ++ join ","
        (flat_map (fun p => match snd p with
                            | VUndefined | VFunction _ _ => []
                            | _ => [(quote (fst p) ++ ":" ++ text (snd p))%string]
                            end) props) ++ "}")%string
  | VFunction _ _ => "null"
  end.

Definition stringify (v : value) : option string :=
  match v with
  | VFunction _ _ => Some "undefined"
  | _ => Some (text v)
  end.

Definition is_ws (c : ascii) : bool :=
  let n := nat_of_ascii c in
  (n =? 32)%nat || (n =? 9)%nat || (n =? 10)%nat || (n =? 13)%nat.

Definition digit_of (c : ascii) : option Z :=
  let n := nat_of_ascii c in
  if (48 <=? n)%nat && (n <=? 57)%nat then Some (Z.of_nat n - 48)%Z else None.

Fixpoint skip_ws (l : list ascii) : list ascii :=
  match l with
  | c :: r => if is_ws c then skip_ws r else l
  | [] => []
  end.

Fixpoint read_digits (acc : Z) (l : list ascii) : Z * list ascii :=
  match l with
  | c :: r =>
      match digit_of c with
      | Some d => read_digits (acc * 10 + d)%Z r
      | None => (acc, l)
      end
  | [] => (acc, [])
  end.

(** An integer literal: no leading zero, no fraction, no exponent. *)
Definition read_int (l : list ascii) : option (Z * list ascii) :=
  match l with
  | c :: r =>
      match digit_of c with
      | Some d =>
          let '(n, rest) := if (d =? 0)%Z then (0%Z, r) else read_digits d r in
          match rest with
          | c' :: _ =>
              if match digit_of c' with Some _ => true | None => false end
                 || (nat_of_ascii c' =? 46)%nat || (nat_of_ascii c' =? 101)%nat
                 || (nat_of_ascii c' =? 69)%nat
              then None else Some (n, rest)
          | [] => Some (n, rest)
          end
      | None => None
      end
  | [] => None
  end.

(** The characters of a string literal up to its closing quote. *)
Fixpoint read_chars (l : list ascii) : option (string * list ascii) :=
  match l with
  | [] => None
  | c :: r =>
      let n := nat_of_ascii c in
      if (n =? 34)%nat then Some ("", r)
      else if (n =? 92)%nat || (n <? 32)%nat then None
      else match read_chars r with
           | Some (s, rest) => Some (String c s, rest)
           | None => None
           end
  end.

Fixpoint read_value (fuel : nat) (l : list ascii) : option (value * list ascii) :=
  match fuel with
  | O => None
  | S f =>
      match skip_ws l with
      | "n" :: "u" :: "l" :: "l" :: r => Some (VNull, r)
      | "t" :: "r" :: "u" :: "e" :: r => Some (VBool true, r)
      | "f" :: "a" :: "l" :: "s" :: "e" :: r => Some (VBool false, r)
      | "034" :: r =>
          match read_chars r with
          | Some (s, rest) => Some (VStr s, rest)
          | None => None
          end
      | "[" :: r =>
          match skip_ws r with
          | "]" :: rest => Some (VArr [] [], rest)
          | _ =>
              match read_elems f r with
              | Some (vs, rest) => Some (VArr vs [], rest)
              | None => None
              end
          end
      | "{" :: r =>
          match skip_ws r with
          | "}" :: rest => Some (VObj [], rest)
          | _ =>
              match read_members f r with
              | Some (ps, rest) =>
                  Some (VObj (fold_left (fun acc p => assoc_set (fst p) (snd p) acc) ps []),
                        rest)
              | None => None
              end
          end
      | "-" :: r =>
          match read_int r with
          | Some (n, rest) => Some (VNum (- n), rest)
          | None => None
          end
      | other =>
          match read_int other with
          | Some (n, rest) => Some (VNum n, rest)
          | None => None
          end
      end%char
  end
with read_elems (fuel : nat) (l : list ascii) : option (list value * list ascii) :=
  match fuel with
  | O => None
  | S f =>
      match read_value f l with
      | Some (v, r) =>
          match skip_ws r with
          | "," :: r' =>
              match read_elems f r' with
              | Some (vs, rest) => Some (v :: vs, rest)
              | None => None
              end
          | "]" :: rest => Some ([v], rest)
          | _ => None
          end%char
      | None => None
      end
  end
with read_members (fuel : nat) (l : list ascii)
  : option (list (string * value) * list ascii) :=
  match fuel with
  | O => None
  | S f =>
      match skip_ws l with
      | "034" :: r =>
          match read_chars r with
          | Some (k, r1) =>
              match skip_ws r1 with
              | ":" :: r2 =>
                  match read_value f r2 with
                  | Some (v, r3) =>
                      match skip_ws r3 with
                      | "," :: r4 =>
                          match read_members f r4 with
                          | Some (ps, rest) => Some ((k, v) :: ps, rest)
                          | None => None
                          end
                      | "}" :: rest => Some ([(k, v)], rest)
                      | _ => None
                      end
                  | None => None
                  end
              | _ => None
              end
          | None => None
          end
      | _ => None
      end%char
  end.

Definition parse (s : string) : option value :=
  match read_value (S (String.length s)) (list_ascii_of_string s) with
  | Some (v, rest) =>
      match skip_ws rest with
      | [] => Some v
      | _ => None
      end
  | None => None
  end.

End RefJSON.

(* ===================================================================== *)
(** ** The specification's fingerprint                                     *)
(* ===================================================================== *)

(** The canonical variable string as the specification words it: empty
    when [variables] is absent or not an object (a mapping, an array or a
    function, in the sense of [isObject]), its JSON serialization
    otherwise.  [None] when the serialization fails. *)
Definition canonicalVariableString (JSON_stringify : value -> option string)
    (variables : value) : option string :=
  match variables with
  | VArr _ _ | VObj _ | VFunction _ _ => JSON_stringify variables
  | VUndefined | VNull | VBool _ | VNum _ | VStr _ => Some ""
  end.

(** The fingerprint as the specification words it: the lowercase hex text
    of the SHA-256 digest of the UTF-8 bytes of [persistHash] followed by
    the canonical variable string. *)
Definition fingerprint (persistHash canonical : string) : string :=
  hex_lower (SHA256.hash (utf8_bytes (persistHash ++ canonical))).

(** [!query || Object.keys(query).length === 0], as a proposition: the
    payload is absent (falsy) or has no key. *)
Definition absent_or_empty (payload : value) : Prop :=
  truthy payload = false \/ Object_keys payload = Some [].

(** The error a serialization failure is reported as. *)
Definition invalid_variables : exn :=
  EHttpQuery (mkHttpQueryError 400
    "[persist-query-middleware] Variables are invalid JSON" false None).

(** The message for a query sent as a parsed document. *)
Definition document_message : string :=
  "GraphQL queries must be strings. It looks like you're sending the internal graphql-js representation of a parsed query in your request instead of a request in the GraphQL query language. You can convert an AST to a string using the `print` function from `graphql`, or use a client like `apollo-client` which converts the internal representation to a string for you.".

(** The [extensions] field of the payload is a string that [JSON.parse]
    rejects. *)
Definition extensions_unreadable (JSON_parse : string -> option value)
    (payload : value) : bool :=
  match get_prop payload "extensions" with
  | Some (VStr s) =>
      match JSON_parse s with Some _ => false | None => true end
  | _ => false
  end.

(** The value has a [kind] field equal to "Document". *)
Definition looks_like_document (q : value) : bool :=
  match get_prop q "kind" with
  | Some kind => strict_eq_str kind "Document"
  | None => false
  end.

(** A call on the cache, made at some time of the clock. *)
Inductive cache_call : Type :=
| CallGet (key : string)
| CallSet (key : string) (v : value)
| CallHas (key : string).

(** The cache after a sequence of timed calls. *)
Definition after_call (c : LRUCache) (timed : Z * cache_call) : LRUCache :=
  match timed with
  | (now, CallGet k) => snd (LRUCache_get now c k)
  | (now, CallSet k v) => snd (LRUCache_set now c k v)
  | (now, CallHas k) => c
  end.

Definition after_calls (c : LRUCache) (calls : list (Z * cache_call)) : LRUCache :=
  fold_left after_call calls c.

(** The calls that insert the given timed items, in order. *)
Definition insertions (items : list (Z * (string * value))) : list (Z * cache_call) :=
  map (fun item => (fst item, CallSet (fst (snd item)) (snd (snd item)))) items.

Definition item_key (item : Z * (string * value)) : string := fst (snd item).

(** The keys the cache holds, most recently used first. *)
Definition stored_keys (c : LRUCache) : list string :=
  map LRU.key (LRU.entries (cache c)).

(** Numbered items [key0], [key1], ... inserted at times 0, 1, ... *)
Definition numbered_items (count : nat) : list (Z * (string * value)) :=
  map (fun i => (Z.of_nat i, (("key" ++ decimal_of_nat i)%string, VNum (Z.of_nat i))))
      (seq 0 count).

(** The context the pipeline hands to the next handler on a cache miss:
    the request body with its [query] field set to [persistMap[persistHash]].
    [None] when the key or the assignment raises a [TypeError]. *)
Definition forwarded (persistMap : gmap string string) (r : GraphQLRequest)
    (ctx : Context) : option Context :=
  match ToString (persistHash r) with
  | Some k =>
      match set_prop (request_body ctx) "query" (persistMap_read persistMap k) with
      | Some body => Some (with_request_body ctx body)
      | None => None
      end
  | None => None
  end.

(** The world after [cacheAfterExecutionGraphQL]: the entry is written
    when [persistHash] is truthy and the response type is
    [application/json], and nothing changes otherwise. *)
Definition populated (persistHash : value) (requestHash : string) (w : World) : World :=
  if truthy persistHash && (response_type (w_ctx w) =? "application/json") then
    mkWorld (w_ctx w)
            (snd (LRUCache_set (w_now w) (w_cache w) requestHash (response_body (w_ctx w))))
            (w_now w)
            (w_trace w ++ [EvCacheSet requestHash (response_body (w_ctx w))])
  else w.

(** The world after the next handler has run on [ctx1], following a
    lookup of [h] that left the cache as [c1]. *)
Definition executed (next : Handler) (h : string) (c1 : LRUCache) (ctx1 : Context)
    (w : World) : World :=
  mkWorld (out_ctx (next ctx1)) c1 (w_now w + out_elapsed (next ctx1))
          (w_trace w ++ [EvCacheGet h; EvNext ctx1]).

(** *** A scenario: one persisted query and an executor that answers it *)

Definition scenario_map : gmap string string := {[ "abc123" := "{ hello }" ]}.

Definition hello_world : value := VObj [("data", VObj [("hello", VStr "world")])].

(** An execution layer that answers every request with the same JSON
    result, five milliseconds later. *)
Definition executor : Handler := fun ctx =>
  mkOutcome (mkContext (ctx_path ctx) (request_method ctx) (request_body ctx)
                       (request_query ctx) (req_body ctx) hello_world "application/json")
            5 None.

(** A POST request to [/graphql] with the given parsed body. *)
Definition post (body : value) : Context :=
  mkContext "/graphql" "POST" body (VObj []) VUndefined VUndefined "".

(** A GET request to [/graphql] with the given query-string mapping, on a
    server without a body parser. *)
Definition get_without_body (query : value) : Context :=
  mkContext "/graphql" "GET" VUndefined query VUndefined VUndefined "".

(** The world at the start of a request. *)
Definition start (c : LRUCache) (ctx : Context) : World := mkWorld ctx c 0 [].

(** The middleware of the scenario. *)
Definition scenario : World -> result unit * World :=
  persistCache RefJSON.parse RefJSON.stringify "/graphql" scenario_map executor.

(** The world in which a later request arrives: the cache and the clock
    are those the earlier request left. *)
Definition next_request (w : World) (ctx : Context) : World :=
  mkWorld ctx (w_cache w) (w_now w) [].

Definition persisted : Context := post (VObj [("id", VStr "abc123")]).

Definition persisted_parsed : GraphQLRequest :=
  mkGraphQLRequest VUndefined VUndefined VUndefined VUndefined (VStr "abc123").

(** What the middleware hands to the executor for [persisted]. *)
Definition persisted_resolved : Context :=
  post (VObj [("id", VStr "abc123"); ("query", VStr "{ hello }")]).

(** A first persisted request on a fresh cache, and the same request
    again. *)
Definition first_request : World := start (getCache None) persisted.
Definition second_request : World := next_request (snd (scenario first_request)) persisted.

(** The same request when the cache holds the value [false] under its
    fingerprint. *)
Definition request_over_false : World :=
  start (snd (LRUCache_set 0 (getCache None) (fingerprint "abc123" "") (VBool false)))
        persisted.

(** A request that sends its query text and no [id]. *)
Definition plain : Context := post (VObj [("query", VStr "{ hello }")]).

(** A persisted request whose [id] is the empty string. *)
Definition empty_id : Context := post (VObj [("id", VStr "")]).

(** A persisted request whose [id] is the text "undefined". *)
Definition undefined_id : Context := post (VObj [("id", VStr "undefined")]).

(** A request that sends its query text under the [id] "constructor",
    which is no entry of the map of the scenario. *)
Definition constructor_id : Context :=
  post (VObj [("id", VStr "constructor"); ("query", VStr "{ hello }")]).

(** The error reported for a field that is not JSON. *)
Definition invalid_json (msg : string) : exn :=
  EHttpQuery (mkHttpQueryError 400 msg false None).

(** The calls one request can make on its collaborators, in the order it
    makes them: off the configured path the next handler alone; on it the
    lookup of a fingerprint, then the next handler, then the write of that
    same fingerprint, stopping anywhere in between. *)
Definition one_request_log (ctx : Context) (events : list event) : Prop :=
  events = [EvNext ctx]
  \/ events = []
  \/ exists h, events = [EvCacheGet h]
      \/ exists ctx1, events = [EvCacheGet h; EvNext ctx1]
         \/ exists b, events = [EvCacheGet h; EvNext ctx1; EvCacheSet h b].

(** A lowercase hexadecimal digit. *)
Definition is_hex_lower (c : ascii) : bool :=
  existsb (Ascii.eqb c) (list_ascii_of_string "0123456789abcdef").

(** A PUT request to [/graphql]. *)
Definition put (body : value) : Context :=
  mkContext "/graphql" "PUT" body (VObj []) VUndefined VUndefined "".

(** An execution layer that fails. *)
Definition failing_executor : Handler := fun ctx =>
  mkOutcome ctx 5 (Some (EError "resolver failed")).

(** The persisted request again, more than an hour after the first one
    was answered. *)
Definition late_request : World :=
  mkWorld persisted (w_cache (snd (scenario first_request))) 3600006 [].

(** A request for the same persisted query sent as GET, on a server whose
    body parser left an empty body. *)
Definition persisted_get : Context :=
  mkContext "/graphql" "GET" (VObj []) (VObj [("id", VStr "abc123")])
            VUndefined VUndefined "".

(* ===================================================================== *)
(** * Properties                                                           *)
(* ===================================================================== *)

(** ** SHA-256 test vectors (FIPS 180-4, appendix B) *)

Example sha256_empty :
  hex_lower (SHA256.hash (utf8_bytes "")) =
  "e3b0c44298fc1c149afbf4c8996fb92427ae41e4649b934ca495991b7852b855".
Proof. vm_compute. reflexivity. Qed.

Example sha256_abc :
  hex_lower (SHA256.hash (utf8_bytes "abc")) =
  "ba7816bf8f01cfea414140de5dae2223b00361a396177a9cb410ff61f20015ad".
Proof. vm_compute. reflexivity. Qed.

Example sha256_two_blocks :
  hex_lower (SHA256.hash (utf8_bytes
    "abcdbcdecdefdefgefghfghighijhijkijkljklmklmnlmnomnopnopq")) =
  "248d6a61d20638b8e5c026930c3e6039a33ce45964ff2167f6ecedd419db06c1".
Proof. vm_compute. reflexivity. Qed.

(** ** The fingerprint generator *)

Lemma utf8_bytes_app (a b : string) :
  utf8_bytes (a ++ b) = utf8_bytes a ++ utf8_bytes b.
Proof.
  unfold utf8_bytes. induction a as [|c a IH]; simpl; [reflexivity|].
  f_equal. exact IH.
Qed.

(** The hash-object calls of the source compute the digest of the
    concatenation. *)
Lemma digest_of_update (s : string) :
  Hash_digest_hex (Hash_update createHash_sha256 s) =
  hex_lower (SHA256.hash (utf8_bytes s)).
Proof. reflexivity. Qed.

Lemma hex_lower_length (bs : list Z) :
  String.length (hex_lower bs) = (2 * length bs)%nat.
Proof. induction bs as [|b bs IH]; simpl; [reflexivity|]. rewrite IH. lia. Qed.

Lemma compress_length (h block : list Z) :
  length h = 8%nat -> length (SHA256.compress h block) = 8%nat.
Proof.
  intros Hh. unfold SHA256.compress. rewrite length_map, length_combine, Hh.
  reflexivity.
Qed.

Lemma hash_length (msg : list Z) : length (SHA256.hash msg) = 32%nat.
Proof.
  unfold SHA256.hash.
  assert (H8 : forall blocks h, length h = 8%nat ->
                 length (fold_left SHA256.compress blocks h) = 8%nat).
  { induction blocks as [|b blocks IH]; intros h Hh; simpl; [exact Hh|].
    apply IH. apply compress_length. exact Hh. }
  specialize (H8 (SHA256.chunks 64 (length (SHA256.pad msg) / 64) (SHA256.pad msg))
                 SHA256.H_init eq_refl).
  destruct (fold_left SHA256.compress _ SHA256.H_init)
    as [|a [|b [|c [|d [|e [|f [|g [|h [|]]]]]]]]]; try discriminate.
  reflexivity.
Qed.

(** A fingerprint is a text of sixty-four hexadecimal digits. *)
Lemma fingerprint_length (persistHash canonical : string) :
  String.length (fingerprint persistHash canonical) = 64%nat.
Proof. unfold fingerprint. rewrite hex_lower_length, hash_length. reflexivity. Qed.

(** C1. For every persistHash string and every variables value,
    [generateRequestHash] returns the lowercase hex text of the SHA-256
    digest of the UTF-8 bytes of persistHash followed by the canonical
    variable string: empty when variables is absent or not an object, the
    JSON serialization of variables otherwise.  (When that serialization
    throws, the function throws an HttpQueryError of status 400 and
    returns no fingerprint.) *)
Theorem generateRequestHash_is_fingerprint
    (JSON_stringify : value -> option string)
    (persistHash : string) (variables : value) :
  generateRequestHash JSON_stringify (VStr persistHash) variables =
  match canonicalVariableString JSON_stringify variables with
  | Some canonical => Ok (fingerprint persistHash canonical)
  | None => Throw invalid_variables
  end.
Proof.
  unfold generateRequestHash, canonicalVariableString.
  destruct variables as [| |b|n|s|elems named|props|f named]; simpl;
    try reflexivity.
  - destruct b; reflexivity.
  - destruct (n =? 0)%Z; reflexivity.
  - destruct (s =? ""); reflexivity.
  - destruct (JSON_stringify (VArr elems named)); reflexivity.
  - destruct (JSON_stringify (VObj props)); reflexivity.
  - destruct (JSON_stringify (VFunction f named)); reflexivity.
Qed.

(** The object [createHash] has just allocated is the last of the store. *)
Lemma lookup_fresh (store : Crypto.Store) (o : Crypto.HashObject) :
  (store ++ [o]) !! length store = Some o.
Proof. induction store as [|x store IH]; [reflexivity|exact IH]. Qed.

Lemma insert_fresh (store : Crypto.Store) (o o' : Crypto.HashObject) :
  <[length store := o']> (store ++ [o]) = store ++ [o'].
Proof.
  induction store as [|x store IH]; [reflexivity|].
  cbn [length app]. change (x :: <[length store := o']> (store ++ [o]) = x :: store ++ [o']).
  f_equal. exact IH.
Qed.

(** One call of [generateRequestHash] in a store of hash objects: the
    result of the function, and the store with at most one object more,
    finished when the digest was taken. *)
Lemma generateRequestHash_call
    (JSON_stringify : value -> option string)
    (persistHash variables : value) (store : Crypto.Store) :
  fst (Crypto.generateRequestHash JSON_stringify persistHash variables store) =
    generateRequestHash JSON_stringify persistHash variables
  /\ exists fresh,
       snd (Crypto.generateRequestHash JSON_stringify persistHash variables store) =
         store ++ fresh
       /\ (length fresh <= 1)%nat
       /\ (forall h, generateRequestHash JSON_stringify persistHash variables = Ok h ->
            exists fed, fresh = [Crypto.mkHashObject fed true]).
Proof.
  unfold Crypto.generateRequestHash, generateRequestHash, Crypto.bind, Crypto.pure,
    Crypto.createHash.
  destruct (negb (truthy variables) || negb (isObject variables)).
  - cbn beta iota. unfold or_TypeError.
    destruct (ToString persistHash) as [id|]; cbn.
    + unfold Crypto.update. rewrite lookup_fresh. cbn beta iota.
      rewrite insert_fresh. unfold Crypto.digest_hex. rewrite lookup_fresh.
      cbn beta iota. rewrite insert_fresh. cbn [fst snd]. split; [reflexivity|].
      eexists. split; [reflexivity|]. split; [simpl; lia|]. intros h _. eauto.
    + split; [reflexivity|]. eexists. split; [reflexivity|]. split; [simpl; lia|].
      intros h [=].
  - destruct (JSON_stringify variables) as [s|]; cbn beta iota.
    + unfold or_TypeError. destruct (ToString persistHash) as [id|]; cbn.
      * unfold Crypto.update. rewrite lookup_fresh. cbn beta iota.
        rewrite insert_fresh. unfold Crypto.digest_hex. rewrite lookup_fresh.
        cbn beta iota. rewrite insert_fresh. cbn [fst snd]. split; [reflexivity|].
        eexists. split; [reflexivity|]. split; [simpl; lia|]. intros h _. eauto.
      * split; [reflexivity|]. eexists. split; [reflexivity|]. split; [simpl; lia|].
        intros h [=].
    + cbn. split; [reflexivity|]. exists []. rewrite app_nil_r.
      split; [reflexivity|]. split; [simpl; lia|]. intros h [=].
Qed.

(** C2. The fingerprint function is deterministic and free of side
    effects.  Run on the hash objects of the [crypto] module, in any
    store of such objects, a call on the pair (persistHash, variables)
    returns what the function of the pair returns: the same output in any
    two stores, and the same output again when it is called a second time
    in the store the first call left.  The call works on a hash object of
    its own: the objects that were in the store are there unchanged, and
    at most one object is added. *)
Theorem generateRequestHash_deterministic
    (JSON_stringify : value -> option string)
    (persistHash variables : value) (store store' : Crypto.Store) :
  let call := Crypto.generateRequestHash JSON_stringify persistHash variables in
  fst (call store) = generateRequestHash JSON_stringify persistHash variables
  /\ fst (call store') = fst (call store)
  /\ fst (call (snd (call store))) = fst (call store)
  /\ (forall address object, store !! address = Some object ->
        snd (call store) !! address = Some object)
  /\ (length (snd (call store)) <= S (length store))%nat.
Proof.
  cbn zeta.
  destruct (generateRequestHash_call JSON_stringify persistHash variables store)
    as (Hres & fresh & Hstore & Hlen & _).
  split; [exact Hres|]. split.
  { rewrite Hres.
    apply (generateRequestHash_call JSON_stringify persistHash variables store'). }
  split.
  { rewrite Hres.
    apply (generateRequestHash_call JSON_stringify persistHash variables). }
  rewrite Hstore. split.
  - intros address object Hat. apply lookup_app_l_Some. exact Hat.
  - rewrite length_app. lia.
Qed.

(** A call in the empty store: the fingerprint, and the one object the
    call created, fed and finished. *)
Example generateRequestHash_in_empty_store :
  Crypto.generateRequestHash RefJSON.stringify (VStr "abc123") VUndefined [] =
  (Ok (fingerprint "abc123" ""),
   [Crypto.mkHashObject (mkHash (utf8_bytes "abc123")) true]).
Proof. vm_compute. reflexivity. Qed.

(** A finished hash object takes no more data: a function that kept one
    object for all its calls would fail from the second call on. *)
Example finished_object_refuses_update :
  Crypto.update 0 "abc123" [Crypto.mkHashObject (mkHash (utf8_bytes "abc123")) true] =
  (Throw (EError "Digest already called"),
   [Crypto.mkHashObject (mkHash (utf8_bytes "abc123")) true]).
Proof. reflexivity. Qed.

(** ** The string form of numbers *)

(** Up to [2^53] a Number prints all its digits. *)
Lemma Number_toString_digits (n : Z) :
  (0 < n < 2 ^ 53)%Z -> Number.toString n = decimal_of_Z n.
Proof.
  intros [Hpos Hlt]. unfold Number.toString, Number.toString_pos, Number.nearest.
  destruct (Z.eqb_spec n 0) as [|_]; [lia|].
  destruct (Z.ltb_spec n 0) as [|_]; [lia|].
  assert (Hlog : (Z.log2 n < 53)%Z) by (apply Z.log2_lt_pow2; lia).
  destruct (Z.ltb_spec (Z.log2 n) 53) as [_|]; [|lia].
  destruct (Z.ltb_spec (Z.log2 n) 53) as [_|]; [|lia].
  reflexivity.
Qed.

(** Beyond, it prints the shortest decimal that reads back as the same
    Number, in exponent form from [10^21] on. *)
Example Number_toString_examples :
  Number.toString 0 = "0"
  /\ Number.toString (-5) = "-5"
  /\ Number.toString (2 ^ 53) = "9007199254740992"
  /\ Number.toString (2 ^ 53 + 1) = "9007199254740992"
  /\ Number.toString (2 ^ 60) = "1152921504606847000"
  /\ Number.toString (10 ^ 21 - 65537) = "999999999999999900000"
  /\ Number.toString (10 ^ 21) = "1e+21"
  /\ Number.toString (- 10 ^ 21) = "-1e+21"
  /\ Number.toString (2 ^ 70) = "1.1805916207174113e+21"
  /\ Number.toString (10 ^ 23) = "1e+23"
  /\ Number.toString (2 ^ 1024 - 2 ^ 970 - 1) = "1.7976931348623157e+308"
  /\ Number.toString (2 ^ 1024) = "Infinity".
Proof. repeat split; vm_compute; reflexivity. Qed.

(** ** The request normalizer *)

Lemma missing_or_empty_true (payload : value) :
  absent_or_empty payload -> missing_or_empty payload = Ok true.
Proof.
  unfold missing_or_empty. intros [Hfalsy | Hkeys].
  - rewrite Hfalsy. reflexivity.
  - destruct (truthy payload); simpl; [|reflexivity].
    rewrite Hkeys. reflexivity.
Qed.

(** A payload that passes the emptiness test is handed on unchanged. *)
Lemma missing_or_empty_false (payload : value) :
  missing_or_empty payload = Ok false ->
  truthy payload = true /\ get_prop payload "query" <> None.
Proof.
  unfold missing_or_empty. destruct (truthy payload) eqn:Ht; simpl; [|discriminate].
  intros _. split; [reflexivity|].
  destruct payload; simpl in *; congruence.
Qed.

(** C6. Request normalization dispatches on the HTTP method: a GET
    request whose query-string mapping is absent or empty fails with an
    HttpQueryError of status 400; a POST request whose body is absent or
    empty fails with an HttpQueryError of status 500; any other method
    fails with an HttpQueryError of status 405 that carries the header
    [Allow: GET, POST]. *)
Theorem validateRequestPayload_by_method
    (payload anything : value) (method : string) :
  absent_or_empty payload ->
  method <> "GET" -> method <> "POST" ->
  validateRequestPayload (payload, "GET") =
    Throw (EHttpQuery (mkHttpQueryError 400 "GET query missing." false None))
  /\ validateRequestPayload (payload, "POST") =
    Throw (EHttpQuery (mkHttpQueryError 500
      "POST body missing. Did you forget use body-parser middleware?" false None))
  /\ validateRequestPayload (anything, method) =
    Throw (EHttpQuery (mkHttpQueryError 405
      "Apollo Server supports only GET/POST requests." false
      (Some [("Allow", "GET, POST")]))).
Proof.
  intros Hempty Hget Hpost. unfold validateRequestPayload.
  repeat split.
  - simpl. rewrite (missing_or_empty_true _ Hempty). reflexivity.
  - simpl. rewrite (missing_or_empty_true _ Hempty). reflexivity.
  - destruct (String.eqb_spec method "POST") as [->|_]; [congruence|].
    destruct (String.eqb_spec method "GET") as [->|_]; [congruence|].
    reflexivity.
Qed.

Lemma validateRequestPayload_by_method_witness :
  validateRequestPayload (VObj [], "GET") =
    Throw (EHttpQuery (mkHttpQueryError 400 "GET query missing." false None))
  /\ validateRequestPayload (VObj [], "POST") =
    Throw (EHttpQuery (mkHttpQueryError 500
      "POST body missing. Did you forget use body-parser middleware?" false None))
  /\ validateRequestPayload (VObj [("id", VStr "abc123")], "PUT") =
    Throw (EHttpQuery (mkHttpQueryError 405
      "Apollo Server supports only GET/POST requests." false
      (Some [("Allow", "GET, POST")]))).
Proof.
  apply (validateRequestPayload_by_method (VObj []) (VObj [("id", VStr "abc123")]) "PUT").
  - right. reflexivity.
  - discriminate.
  - discriminate.
Defined.

(** The context-level reading of the method dispatch: the payload is the
    query-string mapping for GET and the parsed body (or, when that is
    falsy, the body left on the raw request) for POST. *)
Lemma parseGraphQLRequest_by_method
    (JSON_parse : string -> option value) (ctx : Context) :
  (request_method ctx = "GET" -> absent_or_empty (request_query ctx) ->
   parseGraphQLRequest JSON_parse ctx =
     Throw (EHttpQuery (mkHttpQueryError 400 "GET query missing." false None)))
  /\ (request_method ctx = "POST" ->
      absent_or_empty (fst (parseQueryAndMethod ctx)) ->
      parseGraphQLRequest JSON_parse ctx =
        Throw (EHttpQuery (mkHttpQueryError 500
          "POST body missing. Did you forget use body-parser middleware?" false None)))
  /\ (request_method ctx <> "GET" -> request_method ctx <> "POST" ->
      parseGraphQLRequest JSON_parse ctx =
        Throw (EHttpQuery (mkHttpQueryError 405
          "Apollo Server supports only GET/POST requests." false
          (Some [("Allow", "GET, POST")])))).
Proof.
  unfold parseGraphQLRequest, parseQueryAndMethod. repeat split.
  - intros Hm He. rewrite Hm. simpl.
    rewrite (missing_or_empty_true _ He). reflexivity.
  - intros Hm He. rewrite Hm in *. simpl in *.
    rewrite (missing_or_empty_true _ He). reflexivity.
  - intros Hg Hp. unfold validateRequestPayload.
    destruct (String.eqb_spec (request_method ctx) "POST") as [E|_]; [congruence|].
    destruct (String.eqb_spec (request_method ctx) "GET") as [E|_]; [congruence|].
    reflexivity.
Qed.

(** C8, as the code has it.  For every payload whose [query] field is
    truthy and not a string, normalization fails with an HttpQueryError of
    status 400.  Its message reports the extensions when [extensions] is a
    string of invalid JSON; otherwise it is the specific message that
    tells the client to stringify the query when the value has a [kind]
    field equal to "Document", and the plain "GraphQL queries must be
    strings." when it has not. *)
Theorem nonstring_query_rejected
    (JSON_parse : string -> option value) (payload q : value) :
  get_prop payload "query" = Some q ->
  truthy q = true ->
  is_string q = false ->
  parseGraphQLRequestFromPayload JSON_parse payload =
    Throw (EHttpQuery (mkHttpQueryError 400
      (if extensions_unreadable JSON_parse payload then "Extensions are invalid JSON."
       else if looks_like_document q then document_message
       else "GraphQL queries must be strings.")
      false None)).
Proof.
  intros Hq Ht Hs.
  unfold parseGraphQLRequestFromPayload, extensions_unreadable, looks_like_document.
  rewrite Hq. simpl.
  destruct (get_prop payload "extensions") as [ext|] eqn:He.
  2:{ destruct payload; simpl in *; discriminate. }
  simpl. rewrite Ht, Hs. simpl.
  assert (Hk : exists kind, get_prop q "kind" = Some kind).
  { destruct q; simpl in *; try discriminate; eauto. }
  destruct Hk as [kind Hk]. rewrite Hk. simpl.
  destruct ext as [| |b|n|s|elems named|props|f fnamed]; simpl;
    try (destruct (strict_eq_str kind "Document"); reflexivity).
  destruct (JSON_parse s); simpl; [|reflexivity].
  destruct (strict_eq_str kind "Document"); reflexivity.
Qed.

Lemma nonstring_query_rejected_witness :
  parseGraphQLRequestFromPayload RefJSON.parse
    (VObj [("query", VObj [("kind", VStr "Document")]); ("id", VStr "abc123")]) =
  Throw (EHttpQuery (mkHttpQueryError 400 document_message false None)).
Proof.
  apply (nonstring_query_rejected RefJSON.parse
           (VObj [("query", VObj [("kind", VStr "Document")]); ("id", VStr "abc123")])
           (VObj [("kind", VStr "Document")])); reflexivity.
Defined.

(** C8, as stated, fails twice.  A [query] that is present, not a string
    and falsy (here the number 0) is normalized without any error; and a
    parsed document sent next to an [extensions] string of invalid JSON is
    rejected with the message about the extensions, not with the one that
    tells the client to stringify the query. *)
Lemma nonstring_query_counterexample :
  parseGraphQLRequestFromPayload RefJSON.parse
    (VObj [("query", VNum 0); ("id", VStr "abc123")]) =
  Ok (mkGraphQLRequest (VNum 0) VUndefined VUndefined VUndefined (VStr "abc123"))
  /\ parseGraphQLRequestFromPayload RefJSON.parse
       (VObj [("query", VObj [("kind", VStr "Document")]);
              ("extensions", VStr "{not json")]) =
     Throw (EHttpQuery (mkHttpQueryError 400 "Extensions are invalid JSON." false None))
  /\ "Extensions are invalid JSON." <> document_message.
Proof. split; [reflexivity|]. split; [reflexivity|]. discriminate. Qed.

(** ** The bounded response cache *)

Section CacheBound.

Import LRU.

Lemma lookup_key (k : string) (es : list entry) (e : entry) :
  lookup k es = Some e -> key e = k /\ In e es.
Proof.
  unfold lookup. intros H. apply find_some in H. destruct H as [Hin Hk].
  apply String.eqb_eq in Hk. auto.
Qed.

Lemma lookup_None_not_in (k : string) (es : list entry) :
  lookup k es = None <-> ~ In k (map key es).
Proof.
  unfold lookup. induction es as [|e es IH]; simpl.
  - tauto.
  - destruct (String.eqb_spec (key e) k) as [E|E].
    + split; [discriminate|]. intros H. exfalso. apply H. auto.
    + rewrite IH. tauto.
Qed.

Lemma remove_length_le (k : string) (es : list entry) :
  (length (remove k es) <= length es)%nat.
Proof.
  unfold remove. induction es as [|e es IH]; simpl; [lia|].
  destruct (negb (key e =? k)); simpl; lia.
Qed.

Lemma remove_length_lt (k : string) (es : list entry) (e : entry) :
  lookup k es = Some e -> (length (remove k es) < length es)%nat.
Proof.
  unfold lookup, remove. induction es as [|x es IH]; simpl; [discriminate|].
  destruct (key x =? k) eqn:E; simpl.
  - intros _. pose proof (remove_length_le k es). unfold remove in *. lia.
  - intros H. apply IH in H. lia.
Qed.

Lemma remove_absent (k : string) (es : list entry) :
  lookup k es = None -> remove k es = es.
Proof.
  unfold lookup, remove. induction es as [|x es IH]; simpl; [reflexivity|].
  destruct (key x =? k) eqn:E; simpl; [discriminate|].
  intros H. rewrite (IH H). reflexivity.
Qed.

Lemma removelast_length {A} (l : list A) :
  length (removelast l) = pred (length l).
Proof.
  induction l as [|x [|y l] IH]; simpl in *; try reflexivity.
  rewrite IH. reflexivity.
Qed.

(** No call takes the store beyond a positive capacity. *)
Lemma after_call_bound (n : nat) (c : LRUCache) (timed : Z * cache_call) :
  (0 < n)%nat ->
  capacity (cache c) = Some n ->
  (size (cache c) <= n)%nat ->
  capacity (cache (after_call c timed)) = Some n
  /\ (size (cache (after_call c timed)) <= n)%nat.
Proof.
  intros Hpos Hcap Hsize. destruct c as [c]. destruct timed as [now [k|k v|k]];
    unfold after_call, LRUCache_get, LRUCache_set, get, set, size, full in *;
    simpl in *.
  - destruct (lookup k (entries c)) as [e|] eqn:Hl; simpl; [|auto].
    pose proof (remove_length_lt _ _ _ Hl).
    destruct (expired now c e); simpl; split; auto; lia.
  - destruct (lookup k (entries c)) as [e|] eqn:Hl; simpl.
    + pose proof (remove_length_lt _ _ _ Hl). split; auto; lia.
    + rewrite Hcap. split; [auto|].
      destruct (Nat.leb_spec n (length (entries c))); simpl.
      * rewrite removelast_length. lia.
      * lia.
  - auto.
Qed.

Lemma after_calls_bound (n : nat) (calls : list (Z * cache_call)) (c : LRUCache) :
  (0 < n)%nat ->
  capacity (cache c) = Some n ->
  (size (cache c) <= n)%nat ->
  capacity (cache (after_calls c calls)) = Some n
  /\ (size (cache (after_calls c calls)) <= n)%nat.
Proof.
  intros Hpos. revert c. unfold after_calls.
  induction calls as [|call calls IH]; intros c Hcap Hsize; simpl; [auto|].
  destruct (after_call_bound n c call Hpos Hcap Hsize) as [Hcap' Hsize'].
  apply IH; assumption.
Qed.

Lemma after_calls_cons (c : LRUCache) (call : Z * cache_call)
    (calls : list (Z * cache_call)) :
  after_calls c (call :: calls) = after_calls (after_call c call) calls.
Proof. reflexivity. Qed.

Lemma after_calls_app (c : LRUCache) (calls more : list (Z * cache_call)) :
  after_calls c (calls ++ more) = after_calls (after_calls c calls) more.
Proof. unfold after_calls. apply fold_left_app. Qed.

(** Below the capacity, distinct new keys pile up in front of the old
    ones. *)
Lemma insertions_below_capacity (n : nat) (items : list (Z * (string * value)))
    (c : LRUCache) :
  capacity (cache c) = Some n ->
  List.NoDup (map item_key items) ->
  (forall k, In k (map item_key items) -> ~ In k (stored_keys c)) ->
  (length items + size (cache c) <= n)%nat ->
  capacity (cache (after_calls c (insertions items))) = Some n
  /\ stored_keys (after_calls c (insertions items)) =
     rev (map item_key items) ++ stored_keys c.
Proof.
  revert c. induction items as [|[now [k v]] items IH]; intros c Hcap Hnd Hnew Hlen.
  - simpl. auto.
  - simpl in Hnd, Hnew, Hlen.
    apply List.NoDup_cons_iff in Hnd. destruct Hnd as [Hnot Hnd].
    assert (Hfresh : lookup k (entries (cache c)) = None).
    { apply lookup_None_not_in. apply Hnew. left. reflexivity. }
    assert (Hstep : after_call c (now, CallSet k v) =
                    mkLRUCache (with_entries (cache c) (mkEntry k v now :: entries (cache c)))).
    { destruct c as [c]. unfold after_call, LRUCache_set, set, full, size in *.
      simpl in *. rewrite Hfresh, Hcap.
      destruct (Nat.leb_spec n (length (entries c))); [lia|]. reflexivity. }
    change (insertions ((now, (k, v)) :: items))
      with ((now, CallSet k v) :: insertions items).
    rewrite after_calls_cons, Hstep.
    destruct (IH (mkLRUCache (with_entries (cache c) (mkEntry k v now :: entries (cache c)))))
      as [Hcap' Hkeys'].
    + simpl. exact Hcap.
    + exact Hnd.
    + intros k' Hin. unfold stored_keys. simpl. intros [E|Hold].
      * subst k'. contradiction.
      * apply (Hnew k'); [right; exact Hin|exact Hold].
    + unfold size in *. simpl. lia.
    + split; [exact Hcap'|]. rewrite Hkeys'. unfold stored_keys. simpl.
      rewrite <- app_assoc. reflexivity.
Qed.

Lemma map_removelast {A B} (f : A -> B) (l : list A) :
  map f (removelast l) = removelast (map f l).
Proof.
  induction l as [|x [|y l] IH]; simpl in *; try reflexivity.
  rewrite IH. reflexivity.
Qed.

(** In a full store, a new key takes the place of the last entry, the
    least recently used one. *)
Lemma set_when_full (n : nat) (c : LRUCache) (now : Z) (k : string) (v : value) :
  (0 < n)%nat ->
  capacity (cache c) = Some n ->
  size (cache c) = n ->
  ~ In k (stored_keys c) ->
  capacity (cache (after_call c (now, CallSet k v))) = Some n
  /\ stored_keys (after_call c (now, CallSet k v)) = k :: removelast (stored_keys c).
Proof.
  intros Hpos Hcap Hsize Hnew. apply lookup_None_not_in in Hnew.
  destruct c as [c]. unfold after_call, LRUCache_set, set, full, size, stored_keys in *.
  simpl in *. rewrite Hnew, Hcap. rewrite Hsize, Nat.leb_refl. simpl.
  rewrite map_removelast. auto.
Qed.

(** A live entry that is read becomes the most recently used; the others
    keep their order. *)
Lemma get_live_moves_to_front (c : LRUCache) (now : Z) (k : string) :
  LRUCache_has now c k = true ->
  stored_keys (after_call c (now, CallGet k)) =
  k :: List.filter (fun k' => negb (k' =? k)) (stored_keys c).
Proof.
  destruct c as [c]. unfold LRUCache_has, has, after_call, LRUCache_get, get, stored_keys.
  simpl. destruct (lookup k (entries c)) as [e|] eqn:Hl; [|discriminate].
  intros Hlive. apply negb_true_iff in Hlive. rewrite Hlive. simpl.
  destruct (lookup_key _ _ _ Hl) as [Hk _]. rewrite Hk. f_equal.
  unfold remove. clear. induction (entries c) as [|x es IH]; simpl; [reflexivity|].
  destruct (negb (key x =? k)); simpl; rewrite IH; reflexivity.
Qed.

(** An entry queried after its time-to-live has elapsed is absent. *)
Lemma expired_entry_is_absent (c : LRUCache) (k : string) (v : value)
    (inserted queried : Z) :
  (ttl (cache c) < queried - inserted)%Z ->
  let c' := snd (LRUCache_set inserted c k v) in
  LRUCache_has queried c' k = false
  /\ fst (LRUCache_get queried c' k) = VUndefined.
Proof.
  intros Hlate. destruct c as [c]. unfold LRUCache_set, LRUCache_has, LRUCache_get.
  unfold set, has, get. simpl in *.
  assert (Hexp : forall es, expired queried (with_entries c es) (mkEntry k v inserted) = true).
  { intros es. unfold expired. simpl. apply Z.ltb_lt. exact Hlate. }
  destruct (lookup k (entries c)); simpl; unfold lookup; simpl;
    rewrite String.eqb_refl, Hexp; auto.
Qed.

End CacheBound.

(** C7. The response cache holds at most its capacity (100 by default):
    whatever calls are made on it, a cache of positive capacity never
    holds more entries than that; inserting capacity + 1 distinct keys
    leaves exactly capacity entries, and the entry evicted is the least
    recently used one: the first key inserted is gone and all the others
    are kept.  In general, a new key inserted into a full cache evicts the
    last key in order of use, an order in which every read of a live entry
    and every insertion puts its key first. *)
Theorem cache_capacity_bound (n : nat) (age : option Z) :
  (0 < n)%nat ->
  let fresh := getCache (Some (mkOptions (Some n) age)) in
  LRU.capacity (cache (getCache None)) = Some 100%nat
  /\ (forall calls, (LRU.size (cache (after_calls fresh calls)) <= n)%nat)
  /\ (forall first rest,
        List.NoDup (map item_key (first :: rest)) ->
        length rest = n ->
        let c := after_calls fresh (insertions (first :: rest)) in
        LRU.size (cache c) = n
        /\ stored_keys c = rev (map item_key rest)
        /\ forall now, LRUCache_has now c (item_key first) = false)
  /\ (forall calls now k v,
        let c := after_calls fresh calls in
        LRU.size (cache c) = n ->
        ~ In k (stored_keys c) ->
        stored_keys (after_call c (now, CallSet k v)) = k :: removelast (stored_keys c))
  /\ (forall calls now k,
        let c := after_calls fresh calls in
        LRUCache_has now c k = true ->
        stored_keys (after_call c (now, CallGet k)) =
        k :: List.filter (fun k' => negb (k' =? k)) (stored_keys c)).
Proof.
  intros Hpos fresh.
  assert (Hcap0 : LRU.capacity (cache fresh) = Some n) by reflexivity.
  assert (Hsize0 : (LRU.size (cache fresh) <= n)%nat) by (unfold LRU.size; simpl; lia).
  split; [reflexivity|]. split; [|split; [|split]].
  - intros calls. apply (after_calls_bound n calls fresh Hpos Hcap0 Hsize0).
  - intros first rest Hnd Hlen c.
    destruct (exists_last (l := rest)) as [init [final Hrest]].
    { intros ->. simpl in Hlen. lia. }
    subst rest. rewrite length_app in Hlen. simpl in Hlen.
    assert (Hc : c = after_call (after_calls fresh (insertions (first :: init)))
                       (fst final, CallSet (item_key final) (snd (snd final)))).
    { unfold c. change (first :: init ++ [final]) with ((first :: init) ++ [final]).
      unfold insertions. rewrite map_app, after_calls_app. reflexivity. }
    change (first :: init ++ [final]) with ((first :: init) ++ [final]) in Hnd.
    rewrite map_app in Hnd.
    assert (Hfinal : ~ In (item_key final) (map item_key (first :: init))).
    { pose proof (NoDup_remove_2 (map item_key (first :: init)) [] (item_key final) Hnd)
        as Hnot.
      rewrite app_nil_r in Hnot. exact Hnot. }
    destruct (insertions_below_capacity n (first :: init) fresh) as [Hcap Hkeys].
    + exact Hcap0.
    + apply NoDup_app_remove_r in Hnd. exact Hnd.
    + intros k _ [].
    + unfold LRU.size. simpl. lia.
    + rewrite app_nil_r in Hkeys.
      assert (Hfull : LRU.size (cache (after_calls fresh (insertions (first :: init)))) = n).
      { unfold LRU.size.
        rewrite <- (length_map LRU.key).
        change (map LRU.key (LRU.entries (cache (after_calls fresh (insertions (first :: init))))))
          with (stored_keys (after_calls fresh (insertions (first :: init)))).
        rewrite Hkeys, length_rev, length_map. simpl. lia. }
      destruct (set_when_full n _ (fst final) (item_key final) (snd (snd final))
                  Hpos Hcap Hfull) as [Hcap' Hkeys'].
      { rewrite Hkeys. rewrite <- in_rev. exact Hfinal. }
      rewrite <- Hc in Hkeys'. rewrite Hkeys in Hkeys'. simpl in Hkeys'.
      rewrite removelast_last in Hkeys'.
      assert (Hstored : stored_keys c = rev (map item_key (init ++ [final]))).
      { rewrite Hkeys', map_app, rev_app_distr. reflexivity. }
      split; [|split].
      * unfold LRU.size. rewrite <- (length_map LRU.key).
        change (map LRU.key (LRU.entries (cache c))) with (stored_keys c).
        rewrite Hstored, length_rev, length_map, length_app. simpl. lia.
      * exact Hstored.
      * intros now. unfold LRUCache_has, LRU.has.
        assert (Hgone : LRU.lookup (item_key first) (LRU.entries (cache c)) = None).
        { apply lookup_None_not_in.
          change (map LRU.key (LRU.entries (cache c))) with (stored_keys c).
          rewrite Hstored, <- in_rev, map_app.
          simpl in Hnd. apply List.NoDup_cons_iff in Hnd. destruct Hnd as [Hnot _].
          exact Hnot. }
        rewrite Hgone. reflexivity.
  - intros calls now k v c Hfull Hnew.
    destruct (after_calls_bound n calls fresh Hpos Hcap0 Hsize0) as [Hcap _].
    apply (set_when_full n c now k v Hpos Hcap Hfull Hnew).
  - intros calls now k c Hlive. apply get_live_moves_to_front. exact Hlive.
Qed.

Lemma cache_capacity_bound_witness :
  let c := after_calls (getCache None) (insertions (numbered_items 101)) in
  LRU.size (cache c) = 100%nat
  /\ stored_keys c = rev (map item_key (tl (numbered_items 101)))
  /\ forall now, LRUCache_has now c "key0" = false.
Proof.
  assert (Hpos : (0 < 100)%nat) by lia.
  destruct (cache_capacity_bound 100 (Some 3600000%Z) Hpos) as (_ & _ & H & _).
  apply (H (0%Z, ("key0", VNum 0)) (tl (numbered_items 101))).
  - apply NoDup_ListNoDup. refine (bool_decide_unpack _ _). vm_compute. exact I.
  - reflexivity.
Defined.

(** ** The resolution pipeline *)

Section Pipeline.

Variable JSON_parse : string -> option value.
Variable JSON_stringify : value -> option string.
Variable path : string.
Variable persistMap : gmap string string.
Variable next : Handler.

Abbreviation parse := (parseGraphQLRequest JSON_parse).
Abbreviation hash := (generateRequestHash JSON_stringify).
Abbreviation run := (persistCache JSON_parse JSON_stringify path persistMap next).

(** Unfold the plumbing of the world monad. *)
Ltac plumbing :=
  unfold mbind, M_bind, mret, M_ret, result_bind, result_ret, lift, get_ctx, put_ctx;
  cbn beta iota.

Lemma hash_Ok_ToString (p v : value) (h : string) :
  hash p v = Ok h -> exists k, ToString p = Some k.
Proof.
  unfold generateRequestHash. intros H.
  destruct (ToString p) as [k|]; [eauto|].
  destruct (negb (truthy v) || negb (isObject v)); simpl in H; [discriminate|].
  destruct (JSON_stringify v); simpl in H; discriminate.
Qed.

Lemma run_on_path (w : World) :
  ctx_path (w_ctx w) = path ->
  run w = getQueryFromHash JSON_parse JSON_stringify next persistMap w.
Proof.
  intros Hp. unfold persistCache, conditionDo, shouldHandleByPath. plumbing.
  rewrite Hp, String.eqb_refl. reflexivity.
Qed.

(** The pipeline up to the cache lookup. *)
Lemma getQueryFromHash_lookup (w : World) (r : GraphQLRequest) (h : string)
    (v : value) (c1 : LRUCache) :
  parse (w_ctx w) = Ok r ->
  hash (persistHash r) (variables r) = Ok h ->
  LRUCache_get (w_now w) (w_cache w) h = (v, c1) ->
  getQueryFromHash JSON_parse JSON_stringify next persistMap w =
  let w1 := mkWorld (w_ctx w) c1 (w_now w) (w_trace w ++ [EvCacheGet h]) in
  if truthy v then
    (Ok tt, mkWorld (with_response_body (w_ctx w) v) c1 (w_now w)
                    (w_trace w ++ [EvCacheGet h]))
  else
    match forwarded persistMap r (w_ctx w) with
    | None => (Throw ETypeError, w1)
    | Some ctx1 =>
        match call_next next (mkWorld ctx1 c1 (w_now w) (w_trace w ++ [EvCacheGet h])) with
        | (Ok _, w2) => cacheAfterExecutionGraphQL (persistHash r) h w2
        | (Throw e, w2) => (Throw e, w2)
        end
    end.
Proof.
  intros Hparse Hhash Hget.
  unfold getQueryFromHash, getResponseFromCache, cache_get, forwarded. plumbing.
  rewrite Hparse. cbn beta iota. rewrite Hhash. cbn beta iota.
  cbn [w_now w_cache w_ctx w_trace]. rewrite Hget. cbn beta iota. unfold log.
  destruct (truthy v) eqn:Ht; cbn beta iota.
  - rewrite Ht. reflexivity.
  - cbn [truthy]. cbn beta iota. unfold persistMap_at, or_TypeError. plumbing.
    destruct (ToString (persistHash r)) as [k|]; [|reflexivity].
    cbn beta iota.
    destruct (set_prop (request_body (w_ctx w)) "query" _) as [body|]; reflexivity.
Qed.

Lemma cacheAfterExecutionGraphQL_run (p : value) (h : string) (w : World) :
  cacheAfterExecutionGraphQL p h w = (Ok tt, populated p h w).
Proof.
  unfold cacheAfterExecutionGraphQL, populated, cache_set, log. plumbing.
  destruct (truthy p && (response_type (w_ctx w) =? "application/json")); [|reflexivity].
  cbn beta iota.
  destruct (LRUCache_set (w_now w) (w_cache w) h (response_body (w_ctx w))) as [b c].
  reflexivity.
Qed.

(** The pipeline on a cache miss, when the query can be handed over. *)
Lemma getQueryFromHash_miss (w : World) (r : GraphQLRequest) (h : string)
    (v : value) (c1 : LRUCache) (ctx1 : Context) :
  parse (w_ctx w) = Ok r ->
  hash (persistHash r) (variables r) = Ok h ->
  LRUCache_get (w_now w) (w_cache w) h = (v, c1) ->
  truthy v = false ->
  forwarded persistMap r (w_ctx w) = Some ctx1 ->
  getQueryFromHash JSON_parse JSON_stringify next persistMap w =
  match out_error (next ctx1) with
  | None => (Ok tt, populated (persistHash r) h (executed next h c1 ctx1 w))
  | Some e => (Throw e, executed next h c1 ctx1 w)
  end.
Proof.
  intros Hparse Hhash Hget Hv Hfw.
  rewrite (getQueryFromHash_lookup w r h v c1 Hparse Hhash Hget).
  cbn zeta. rewrite Hv, Hfw. unfold call_next, executed.
  cbn [w_now w_cache w_ctx w_trace]. rewrite <- app_assoc. cbn [app].
  destruct (out_error (next ctx1)); [reflexivity|].
  apply cacheAfterExecutionGraphQL_run.
Qed.

(** An object body accepts the assignment of its [query] field. *)
Lemma forwarded_object (r : GraphQLRequest) (ctx : Context) (k : string) :
  ToString (persistHash r) = Some k ->
  isObject (request_body ctx) = true ->
  exists body,
    set_prop (request_body ctx) "query" (persistMap_read persistMap k) = Some body
    /\ forwarded persistMap r ctx = Some (with_request_body ctx body).
Proof.
  intros Hk Hobj. unfold forwarded. rewrite Hk.
  destruct (request_body ctx); simpl in *; try discriminate; eauto.
Qed.

Lemma assoc_get_set {A} (k : string) (x : A) (l : list (string * A)) :
  assoc_get k (assoc_set k x l) = Some x.
Proof.
  induction l as [|[k' y] l IH]; simpl.
  - rewrite String.eqb_refl. reflexivity.
  - destruct (k' =? k) eqn:E; simpl; rewrite E; [reflexivity|exact IH].
Qed.

(** A property that was assigned reads back the value assigned. *)
Lemma get_set_prop (v body x : value) (name : string) :
  set_prop v name x = Some body -> get_prop body name = Some x.
Proof.
  destruct v; simpl; try discriminate; intros [= <-]; simpl;
    rewrite assoc_get_set; reflexivity.
Qed.

Lemma assoc_get_set_other {A} (k k' : string) (x : A) (l : list (string * A)) :
  k <> k' -> assoc_get k' (assoc_set k x l) = assoc_get k' l.
Proof.
  intros Hne. induction l as [|[j y] l IH]; simpl.
  - destruct (String.eqb_spec k k'); [contradiction|reflexivity].
  - destruct (String.eqb_spec j k) as [->|Hj]; simpl.
    + destruct (String.eqb_spec k k'); [contradiction|reflexivity].
    + destruct (j =? k'); [reflexivity|exact IH].
Qed.

(** An assignment leaves the other properties as they were. *)
Lemma get_set_prop_other (v body x : value) (name other : string) :
  set_prop v name x = Some body -> name <> other ->
  get_prop body other = get_prop v other.
Proof.
  destruct v; simpl; try discriminate; intros [= <-] Hne; simpl;
    rewrite (assoc_get_set_other name other x _ Hne); reflexivity.
Qed.

(** Only an object takes the assignment. *)
Lemma set_prop_not_object (v x : value) (name : string) :
  isObject v = false -> set_prop v name x = None.
Proof. destruct v; simpl; intros H; try discriminate; reflexivity. Qed.




(** C5, as the code has it.  After execution completes (the next handler
    has returned), the pipeline writes (fingerprint, outbound body) into
    the cache if and only if persistHash is truthy and the type of the
    outbound response is [application/json]; otherwise the cache is not
    written. *)
Theorem cache_written_iff_truthy_hash_and_json (w : World) (r : GraphQLRequest)
    (h : string) (v : value) (c1 : LRUCache) (ctx1 : Context) :
  ctx_path (w_ctx w) = path ->
  parse (w_ctx w) = Ok r ->
  hash (persistHash r) (variables r) = Ok h ->
  LRUCache_get (w_now w) (w_cache w) h = (v, c1) ->
  truthy v = false ->
  forwarded persistMap r (w_ctx w) = Some ctx1 ->
  out_error (next ctx1) = None ->
  let response := out_ctx (next ctx1) in
  let finished := (w_now w + out_elapsed (next ctx1))%Z in
  fst (run w) = Ok tt
  /\ (truthy (persistHash r) = true /\ response_type response = "application/json" ->
      w_trace (snd (run w)) =
        w_trace w ++ [EvCacheGet h; EvNext ctx1; EvCacheSet h (response_body response)]
      /\ w_cache (snd (run w)) = snd (LRUCache_set finished c1 h (response_body response)))
  /\ (~ (truthy (persistHash r) = true /\ response_type response = "application/json") ->
      w_trace (snd (run w)) = w_trace w ++ [EvCacheGet h; EvNext ctx1]
      /\ w_cache (snd (run w)) = c1).
Proof.
  intros Hpath Hparse Hhash Hget Hv Hfw Hdone response finished.
  rewrite (run_on_path w Hpath).
  rewrite (getQueryFromHash_miss w r h v c1 ctx1 Hparse Hhash Hget Hv Hfw).
  rewrite Hdone. cbn [fst snd]. split; [reflexivity|].
  unfold populated, executed. cbn [w_ctx w_cache w_now w_trace]. fold response finished.
  split.
  - intros [Hp Hjson]. rewrite Hp, Hjson. cbn. rewrite <- app_assoc. cbn [app]. auto.
  - intros Hnot. destruct (truthy (persistHash r)) eqn:Hp; cbn [andb].
    + destruct (String.eqb_spec (response_type response) "application/json") as [E|_].
      * exfalso. apply Hnot. auto.
      * cbn. auto.
    + cbn. auto.
Qed.

Lemma set_then_lookup (now : Z) (c : LRUCache) (h : string) (b : value) :
  LRU.lookup h (LRU.entries (cache (snd (LRUCache_set now c h b)))) =
  Some (LRU.mkEntry h b now).
Proof.
  destruct c as [c]. unfold LRUCache_set, LRU.set. simpl.
  destruct (LRU.lookup h (LRU.entries c)); simpl;
    unfold LRU.lookup; simpl; rewrite String.eqb_refl; reflexivity.
Qed.

(** Reading a live entry leaves it in the cache. *)
Lemma get_live_still_there (now : Z) (c c1 : LRUCache) (h : string) (v : value) :
  LRUCache_has now c h = true ->
  LRUCache_get now c h = (v, c1) ->
  LRUCache_has now c1 h = true.
Proof.
  destruct c as [c]. unfold LRUCache_has, LRUCache_get, LRU.has, LRU.get. simpl.
  destruct (LRU.lookup h (LRU.entries c)) as [e|] eqn:Hl; [|discriminate].
  intros Hlive. pose proof Hlive as Hlive'. apply negb_true_iff in Hlive'.
  rewrite Hlive'. intros [= <- <-]. simpl.
  destruct (lookup_key _ _ _ Hl) as [Hk _].
  unfold LRU.lookup. simpl. rewrite Hk, String.eqb_refl. exact Hlive.
Qed.

(** C9. For every fingerprint key whose cached value is falsy, the lookup
    of the pipeline treats the key as absent although the cache contains
    it: [getResponseFromCache] returns [undefined]; so, on the configured
    path, the next handler is invoked, and when it returns a JSON response
    for a truthy persistHash the entry is written again, with the new
    body. *)
Theorem falsy_cached_value_is_a_miss (w : World) (r : GraphQLRequest) (h : string)
    (v : value) (c1 : LRUCache) (ctx1 : Context) :
  LRUCache_has (w_now w) (w_cache w) h = true ->
  LRUCache_get (w_now w) (w_cache w) h = (v, c1) ->
  truthy v = false ->
  fst (getResponseFromCache h w) = Ok VUndefined
  /\ LRUCache_has (w_now w) (w_cache (snd (getResponseFromCache h w))) h = true
  /\ (ctx_path (w_ctx w) = path ->
      parse (w_ctx w) = Ok r ->
      hash (persistHash r) (variables r) = Ok h ->
      forwarded persistMap r (w_ctx w) = Some ctx1 ->
      exists tail,
        w_trace (snd (run w)) = w_trace w ++ EvCacheGet h :: EvNext ctx1 :: tail
        /\ (out_error (next ctx1) = None ->
            truthy (persistHash r) = true ->
            response_type (out_ctx (next ctx1)) = "application/json" ->
            tail = [EvCacheSet h (response_body (out_ctx (next ctx1)))]
            /\ LRU.lookup h (LRU.entries (cache (w_cache (snd (run w))))) =
               Some (LRU.mkEntry h (response_body (out_ctx (next ctx1)))
                                 (w_now w + out_elapsed (next ctx1))%Z))).
Proof.
  intros Hhas Hget Hv. split; [|split].
  - unfold getResponseFromCache, cache_get. plumbing. rewrite Hget.
    cbn beta iota. rewrite Hv. reflexivity.
  - unfold getResponseFromCache, cache_get. plumbing. rewrite Hget.
    cbn beta iota. cbn [snd log w_cache w_now].
    apply (get_live_still_there _ _ _ _ _ Hhas Hget).
  - intros Hpath Hparse Hhash Hfw.
    rewrite (run_on_path w Hpath).
    rewrite (getQueryFromHash_miss w r h v c1 ctx1 Hparse Hhash Hget Hv Hfw).
    destruct (out_error (next ctx1)) as [e|] eqn:Herr; cbn [snd].
    + exists []. split; [reflexivity|]. intros; discriminate.
    + unfold populated, executed. cbn [w_ctx w_cache w_now w_trace].
      destruct (truthy (persistHash r) &&
                (response_type (out_ctx (next ctx1)) =? "application/json")) eqn:Hc.
      * exists [EvCacheSet h (response_body (out_ctx (next ctx1)))].
        cbn [w_trace w_cache]. rewrite <- app_assoc. cbn [app].
        split; [reflexivity|]. intros _ _ _. split; [reflexivity|].
        apply set_then_lookup.
      * exists []. cbn [w_trace]. split; [reflexivity|].
        intros _ Hp Hjson. rewrite Hp, Hjson in Hc. discriminate.
Qed.

(** C10, as the code has it.  On a cache miss for a request on the
    configured path, the pipeline reads [persistMap[persistHash]] at the
    string form of persistHash ("undefined" when persistHash is absent):
    the map's own entry, or else what the map inherits under that name,
    and [undefined] only when there is neither.  When the context carries
    a body object, the pipeline assigns that value to the [query] field of
    the body without any test, and then calls the next handler, once: the
    handler receives the context with the overwritten body, the other
    fields of the body and of the context as they were.  When the context
    carries no body object, the assignment raises a [TypeError] right
    after the lookup and the next handler is not called. *)
Theorem miss_overwrites_query (w : World) (r : GraphQLRequest) (h : string) :
  ctx_path (w_ctx w) = path ->
  parse (w_ctx w) = Ok r ->
  hash (persistHash r) (variables r) = Ok h ->
  truthy (fst (LRUCache_get (w_now w) (w_cache w) h)) = false ->
  exists k,
    ToString (persistHash r) = Some k
    /\ (persistHash r = VUndefined -> k = "undefined")
    /\ (forall text, persistMap !! k = Some text ->
          persistMap_read persistMap k = VStr text)
    /\ (forall member, persistMap !! k = None -> Object_prototype k = Some member ->
          persistMap_read persistMap k = member)
    /\ (persistMap !! k = None -> Object_prototype k = None ->
          persistMap_read persistMap k = VUndefined)
    /\ (isObject (request_body (w_ctx w)) = true ->
          exists ctx1 tail,
            w_trace (snd (run w)) = w_trace w ++ EvCacheGet h :: EvNext ctx1 :: tail
            /\ (forall ctx, ~ In (EvNext ctx) tail)
            /\ get_prop (request_body ctx1) "query" = Some (persistMap_read persistMap k)
            /\ (forall name, name <> "query" ->
                  get_prop (request_body ctx1) name =
                  get_prop (request_body (w_ctx w)) name)
            /\ ctx1 = mkContext (ctx_path (w_ctx w)) (request_method (w_ctx w))
                                (request_body ctx1) (request_query (w_ctx w))
                                (req_body (w_ctx w)) (response_body (w_ctx w))
                                (response_type (w_ctx w)))
    /\ (isObject (request_body (w_ctx w)) = false ->
          run w = (Throw ETypeError,
                   mkWorld (w_ctx w) (snd (LRUCache_get (w_now w) (w_cache w) h))
                           (w_now w) (w_trace w ++ [EvCacheGet h]))).
Proof.
  intros Hpath Hparse Hhash Hmiss.
  destruct (hash_Ok_ToString _ _ _ Hhash) as [k Hk].
  exists k. split; [exact Hk|]. split.
  { intros Hu. rewrite Hu in Hk. simpl in Hk. congruence. }
  split. { intros text Hown. unfold persistMap_read. rewrite Hown. reflexivity. }
  split. { intros member Hown Hin. unfold persistMap_read. rewrite Hown, Hin. reflexivity. }
  split. { intros Hown Hin. unfold persistMap_read. rewrite Hown, Hin. reflexivity. }
  destruct (LRUCache_get (w_now w) (w_cache w) h) as [v c1] eqn:Hget.
  cbn [fst snd] in *.
  split.
  - intros Hobj.
    destruct (forwarded_object r (w_ctx w) k Hk Hobj) as [body [Hset Hfw]].
    exists (with_request_body (w_ctx w) body).
    rewrite (run_on_path w Hpath).
    rewrite (getQueryFromHash_miss w r h v c1 _ Hparse Hhash Hget Hmiss Hfw).
    assert (Htail : exists tail,
      w_trace (snd (match out_error (next (with_request_body (w_ctx w) body)) with
                    | None => (Ok tt, populated (persistHash r) h
                                 (executed next h c1 (with_request_body (w_ctx w) body) w))
                    | Some e => (Throw e,
                                 executed next h c1 (with_request_body (w_ctx w) body) w)
                    end)) =
        w_trace w ++ EvCacheGet h :: EvNext (with_request_body (w_ctx w) body) :: tail
      /\ forall ctx, ~ In (EvNext ctx) tail).
    { destruct (out_error (next (with_request_body (w_ctx w) body))) as [e|]; cbn [snd].
      - exists []. split; [reflexivity|]. intros ctx [].
      - unfold populated, executed. cbn [w_ctx w_cache w_now w_trace].
        match goal with |- context [if ?c then _ else _] => destruct c end.
        + eexists. cbn [w_trace]. rewrite <- app_assoc. cbn [app].
          split; [reflexivity|]. intros ctx [H|[]]. discriminate.
        + exists []. cbn [w_trace]. split; [reflexivity|]. intros ctx []. }
    destruct Htail as [tail [Htrace Hnone]].
    exists tail. split; [exact Htrace|]. split; [exact Hnone|].
    cbn [request_body with_request_body].
    split; [exact (get_set_prop _ _ _ _ Hset)|].
    split; [|reflexivity].
    intros name Hne. apply (get_set_prop_other _ _ _ _ _ Hset). congruence.
  - intros Hobj.
    rewrite (run_on_path w Hpath).
    rewrite (getQueryFromHash_lookup w r h v c1 Hparse Hhash Hget).
    cbn zeta. rewrite Hmiss. unfold forwarded. rewrite Hk.
    rewrite (set_prop_not_object _ _ _ Hobj). reflexivity.
Qed.

(** A request on another path goes straight to the next handler: the
    cache is not consulted and the request is handed over as it came. *)
Lemma other_path_bypasses (w : World) :
  ctx_path (w_ctx w) <> path ->
  run w = call_next next w
  /\ w_trace (snd (run w)) = w_trace w ++ [EvNext (w_ctx w)]
  /\ w_cache (snd (run w)) = w_cache w.
Proof.
  intros Hp.
  assert (Hrun : run w = call_next next w).
  { unfold persistCache, conditionDo, shouldHandleByPath. plumbing.
    destruct (String.eqb_spec path (ctx_path (w_ctx w))) as [E|_]; [congruence|].
    reflexivity. }
  rewrite Hrun. unfold call_next.
  destruct (out_error (next (w_ctx w))); auto.
Qed.

(** X4. Whatever else happens, a request on the configured path whose
    persistHash is falsy writes nothing into the cache. *)
Lemma falsy_persistHash_never_written (w : World) (r : GraphQLRequest) :
  ctx_path (w_ctx w) = path ->
  parse (w_ctx w) = Ok r ->
  truthy (persistHash r) = false ->
  exists events,
    w_trace (snd (run w)) = w_trace w ++ events
    /\ forall k b, ~ In (EvCacheSet k b) events.
Proof.
  intros Hpath Hparse Hfalsy. rewrite (run_on_path w Hpath).
  destruct (hash (persistHash r) (variables r)) as [h|e] eqn:Hhash.
  2:{ exists []. split; [|intros k b []].
      unfold getQueryFromHash. plumbing. rewrite Hparse. cbn beta iota.
      rewrite Hhash. cbn. rewrite app_nil_r. reflexivity. }
  destruct (LRUCache_get (w_now w) (w_cache w) h) as [v c1] eqn:Hget.
  rewrite (getQueryFromHash_lookup w r h v c1 Hparse Hhash Hget). cbn zeta.
  destruct (truthy v).
  { exists [EvCacheGet h]. split; [reflexivity|]. intros k b [H|[]]. discriminate. }
  destruct (forwarded persistMap r (w_ctx w)) as [ctx1|].
  2:{ exists [EvCacheGet h]. split; [reflexivity|]. intros k b [H|[]]. discriminate. }
  unfold call_next. cbn [w_ctx w_cache w_now w_trace].
  exists [EvCacheGet h; EvNext ctx1]. rewrite <- app_assoc. cbn [app].
  split.
  - destruct (out_error (next ctx1)); [reflexivity|].
    rewrite cacheAfterExecutionGraphQL_run. unfold populated. rewrite Hfalsy.
    reflexivity.
  - intros k b [H|[H|[]]]; discriminate.
Qed.

(** On the configured path, a request that normalizes and fingerprints is
    looked up under its fingerprint before anything else happens. *)
Lemma run_looks_up (w : World) (r : GraphQLRequest) (h : string) :
  ctx_path (w_ctx w) = path ->
  parse (w_ctx w) = Ok r ->
  hash (persistHash r) (variables r) = Ok h ->
  exists rest, w_trace (snd (run w)) = w_trace w ++ EvCacheGet h :: rest.
Proof.
  intros Hpath Hparse Hhash. rewrite (run_on_path w Hpath).
  destruct (LRUCache_get (w_now w) (w_cache w) h) as [v c1] eqn:Hget.
  rewrite (getQueryFromHash_lookup w r h v c1 Hparse Hhash Hget). cbn zeta.
  destruct (truthy v); [exists []; reflexivity|].
  destruct (forwarded persistMap r (w_ctx w)) as [ctx1|]; [|exists []; reflexivity].
  unfold call_next. cbn [w_ctx w_cache w_now w_trace].
  destruct (out_error (next ctx1)).
  - exists [EvNext ctx1]. cbn [snd w_trace]. rewrite <- app_assoc. reflexivity.
  - rewrite cacheAfterExecutionGraphQL_run. unfold populated.
    cbn [snd w_ctx w_cache w_now w_trace].
    match goal with |- context [if ?c then _ else _] => destruct c end;
      cbn [w_trace]; rewrite <- !app_assoc; eexists; reflexivity.
Qed.

(** X9. Two requests that carry the same pair (persistHash, variables)
    consult the cache under the same key, whatever else differs between
    them: the method, the query text, the operation name, the extensions,
    the clock, the state of the cache. *)
Lemma same_pair_same_key (w1 w2 : World) (r1 r2 : GraphQLRequest) (h : string) :
  ctx_path (w_ctx w1) = path ->
  ctx_path (w_ctx w2) = path ->
  parse (w_ctx w1) = Ok r1 ->
  parse (w_ctx w2) = Ok r2 ->
  persistHash r1 = persistHash r2 ->
  variables r1 = variables r2 ->
  hash (persistHash r1) (variables r1) = Ok h ->
  exists rest1 rest2,
    w_trace (snd (run w1)) = w_trace w1 ++ EvCacheGet h :: rest1
    /\ w_trace (snd (run w2)) = w_trace w2 ++ EvCacheGet h :: rest2.
Proof.
  intros Hp1 Hp2 Hr1 Hr2 Hsame_hash Hsame_vars Hh.
  destruct (run_looks_up w1 r1 h Hp1 Hr1 Hh) as [rest1 H1].
  rewrite Hsame_hash, Hsame_vars in Hh.
  destruct (run_looks_up w2 r2 h Hp2 Hr2 Hh) as [rest2 H2].
  exists rest1, rest2. auto.
Qed.

End Pipeline.

(** The configuration is checked when the middleware is built: an argument
    that is not an object is refused at once, and a configuration without
    a path listens on [/graphql]. *)
Lemma persistCacheGenerate_checks_config
    (JSON_parse : string -> option value) (JSON_stringify : value -> option string)
    (map : gmap string string) :
  persistCacheGenerate JSON_parse JSON_stringify None =
    Throw (EError "[persist-query-middleware] Invalid config for middleware")
  /\ persistCacheGenerate JSON_parse JSON_stringify (Some (mkConfig None map)) =
    Ok (persistCache JSON_parse JSON_stringify "/graphql" map).
Proof. split; reflexivity. Qed.

(** Without a parsed body there is nothing to assign the query to: on a
    server that runs no body parser, a persisted GET request misses the
    cache and the assignment raises a [TypeError] before the executor is
    reached. *)
Example miss_without_body_throws :
  scenario (start (getCache None) (get_without_body (VObj [("id", VStr "abc123")]))) =
  (Throw ETypeError,
   mkWorld (get_without_body (VObj [("id", VStr "abc123")])) (getCache None) 0
           [EvCacheGet (fingerprint "abc123" "")]).
Proof. vm_compute. reflexivity. Qed.

(** ** The scenario, end to end *)

(** Scenario 1: a first persisted request misses the cache, the executor
    receives the resolved query text, and its JSON response is cached
    under the fingerprint of ("abc123", no variables). *)
Example scenario_first_request :
  scenario first_request =
  (Ok tt,
   mkWorld (with_response_body
              (mkContext "/graphql" "POST" (request_body persisted_resolved) (VObj [])
                         VUndefined VUndefined "application/json") hello_world)
           (snd (LRUCache_set 5 (getCache None) (fingerprint "abc123" "") hello_world))
           5
           [EvCacheGet (fingerprint "abc123" "");
            EvNext persisted_resolved;
            EvCacheSet (fingerprint "abc123" "") hello_world]).
Proof. vm_compute. reflexivity. Qed.

(** Scenario 2: the same request again is answered from the cache. *)
Example scenario_second_request :
  w_trace (snd (scenario second_request)) = [EvCacheGet (fingerprint "abc123" "")]
  /\ response_body (w_ctx (snd (scenario second_request))) = hello_world.
Proof. split; vm_compute; reflexivity. Qed.

(** Scenario 3: variables take part in the key. *)
Example scenario_variables :
  generateRequestHash RefJSON.stringify (VStr "abc123") (VObj [("x", VNum 1)]) =
    Ok "02cdb46fb4bc3ed46c7de5618a4bf5b19d9dc8cf8a45b447714213eddbcdbddb"
  /\ generateRequestHash RefJSON.stringify (VStr "abc123") VUndefined =
    Ok "6ca13d52ca70c883e0f0bb101e425a89e8624de51db2d2392593af6a84118090".
Proof. split; vm_compute; reflexivity. Qed.


Lemma cache_written_iff_truthy_hash_and_json_witness :
  fst (scenario first_request) = Ok tt
  /\ w_trace (snd (scenario first_request)) =
       [EvCacheGet (fingerprint "abc123" ""); EvNext persisted_resolved;
        EvCacheSet (fingerprint "abc123" "") hello_world].
Proof.
  destruct (cache_written_iff_truthy_hash_and_json RefJSON.parse RefJSON.stringify
              "/graphql" scenario_map executor first_request persisted_parsed
              (fingerprint "abc123" "") VUndefined (getCache None) persisted_resolved)
    as (Hok & Hwritten & _).
  - reflexivity.
  - reflexivity.
  - vm_compute. reflexivity.
  - vm_compute. reflexivity.
  - reflexivity.
  - vm_compute. reflexivity.
  - reflexivity.
  - split; [exact Hok|]. apply Hwritten. split; reflexivity.
Defined.

(** C5, as stated, fails for a persistHash that is present and falsy: the
    request carries the id "" (the empty string), the executor answers
    with a JSON response, and nothing is written into the cache. *)
Lemma cache_written_counterexample :
  let w := start (getCache None) empty_id in
  option_map persistHash
    (match parseGraphQLRequest RefJSON.parse empty_id with
     | Ok r => Some r
     | Throw _ => None
     end) = Some (VStr "")
  /\ fst (scenario w) = Ok tt
  /\ response_type (w_ctx (snd (scenario w))) = "application/json"
  /\ w_trace (snd (scenario w)) =
       [EvCacheGet (fingerprint "" "");
        EvNext (post (VObj [("id", VStr ""); ("query", VUndefined)]))]
  /\ LRU.entries (cache (w_cache (snd (scenario w)))) = [].
Proof. repeat split; vm_compute; reflexivity. Qed.

Lemma falsy_cached_value_is_a_miss_witness :
  fst (getResponseFromCache (fingerprint "abc123" "") request_over_false) = Ok VUndefined
  /\ LRUCache_has 0 (w_cache request_over_false) (fingerprint "abc123" "") = true
  /\ exists tail,
       w_trace (snd (scenario request_over_false)) =
         EvCacheGet (fingerprint "abc123" "") :: EvNext persisted_resolved :: tail
       /\ tail = [EvCacheSet (fingerprint "abc123" "") hello_world].
Proof.
  destruct (falsy_cached_value_is_a_miss RefJSON.parse RefJSON.stringify "/graphql"
              scenario_map executor request_over_false persisted_parsed
              (fingerprint "abc123" "") (VBool false) (w_cache request_over_false)
              persisted_resolved)
    as (Hget & _ & Hrun).
  - vm_compute. reflexivity.
  - vm_compute. reflexivity.
  - reflexivity.
  - split; [exact Hget|]. split; [vm_compute; reflexivity|].
    destruct Hrun as [tail [Htrace Htail]].
    + reflexivity.
    + reflexivity.
    + vm_compute. reflexivity.
    + vm_compute. reflexivity.
    + exists tail. split; [exact Htrace|].
      apply Htail; reflexivity.
Defined.

Lemma miss_overwrites_query_witness :
  ToString (persistHash persisted_parsed) = Some "abc123"
  /\ get_prop (request_body persisted_resolved) "query" = Some (VStr "{ hello }")
  /\ exists tail,
       w_trace (snd (scenario first_request)) =
         EvCacheGet (fingerprint "abc123" "") :: EvNext persisted_resolved :: tail.
Proof.
  destruct (miss_overwrites_query RefJSON.parse RefJSON.stringify "/graphql"
              scenario_map executor first_request persisted_parsed
              (fingerprint "abc123" ""))
    as (k & Hk & _ & Hown & _ & _ & Hobj & _).
  - reflexivity.
  - reflexivity.
  - vm_compute. reflexivity.
  - reflexivity.
  - destruct (Hobj eq_refl) as (ctx1 & tail & Htrace & _ & Hquery & _ & _).
    assert (Ek : k = "abc123") by (simpl in Hk; congruence).
    assert (Ec : ctx1 = persisted_resolved).
    { vm_compute in Htrace. injection Htrace as <-. reflexivity. }
    rewrite Ek in *. rewrite Ec in *.
    rewrite (Hown "{ hello }") in Hquery by (vm_compute; reflexivity).
    split; [exact Hk|]. split; [exact Hquery|].
    exists tail. exact Htrace.
Defined.

(** C10, as stated, fails twice.  The [id] "constructor" is not a key of
    the map of the scenario, and the query text the client sent is replaced
    not by [undefined] but by the function the map inherits under that
    name; it is what the executor receives.  And a persisted GET request on
    a server that runs no body parser misses the cache, has no body to
    overwrite and is not delegated: the assignment raises a [TypeError]. *)
Lemma miss_overwrites_query_counterexample :
  scenario_map !! "constructor" = None
  /\ w_trace (snd (scenario (start (getCache None) constructor_id))) =
       [EvCacheGet (fingerprint "constructor" "");
        EvNext (post (VObj [("id", VStr "constructor");
                            ("query", VFunction "Object" [])]));
        EvCacheSet (fingerprint "constructor" "") hello_world]
  /\ scenario (start (getCache None) (get_without_body (VObj [("id", VStr "abc123")]))) =
     (Throw ETypeError,
      mkWorld (get_without_body (VObj [("id", VStr "abc123")])) (getCache None) 0
              [EvCacheGet (fingerprint "abc123" "")]).
Proof. repeat split; vm_compute; reflexivity. Qed.

(** C3, the code at a request without [id].  The specification has such a
    request skip caching entirely and reach the executor unmodified.  The
    code computes a fingerprint from the text "undefined", looks it up in
    the cache, and replaces the query text the client sent by [undefined]
    before it calls the executor; only the last part of the claim holds,
    nothing is written afterwards.  And once a request with the id
    "undefined" has populated the cache, a request without [id] is
    answered from the cache, the executor not being called at all. *)
Theorem request_without_id_is_looked_up_and_rewritten :
  let w := start (getCache None) plain in
  option_map persistHash
    (match parseGraphQLRequest RefJSON.parse plain with
     | Ok r => Some r
     | Throw _ => None
     end) = Some VUndefined
  /\ w_trace (snd (scenario w)) =
       [EvCacheGet (fingerprint "undefined" "");
        EvNext (post (VObj [("query", VUndefined)]))]
  /\ LRU.entries (cache (w_cache (snd (scenario w)))) = []
  /\ let later := next_request (snd (scenario (start (getCache None) undefined_id))) plain in
     scenario later =
       (Ok tt, mkWorld (with_response_body plain hello_world) (w_cache later) 5
                       [EvCacheGet (fingerprint "undefined" "")]).
Proof. repeat split; vm_compute; reflexivity. Qed.

(* ===================================================================== *)
(** * Further properties of the normalizer                                 *)
(* ===================================================================== *)

Section Normalizer.

Variable JSON_parse : string -> option value.

Lemma truthy_get_prop (v : value) (name : string) :
  truthy v = true -> exists x, get_prop v name = Some x.
Proof. destruct v; simpl; try discriminate; eauto. Qed.

Lemma truthy_Object_keys (v : value) :
  truthy v = true -> exists ks, Object_keys v = Some ks.
Proof. destruct v; simpl; try discriminate; eauto. Qed.

Lemma missing_or_empty_total (q : value) :
  exists bad, missing_or_empty q = Ok bad.
Proof.
  unfold missing_or_empty. destruct (truthy q) eqn:Ht; simpl; [|eauto].
  destruct (truthy_Object_keys q Ht) as [ks ->]. simpl. eauto.
Qed.

(** X10. [validateRequestPayload] accepts exactly the GET and POST requests
    whose payload is truthy and has at least one key, and hands that
    payload on unchanged. *)
Theorem validateRequestPayload_accepts (q p : value) (method : string) :
  validateRequestPayload (q, method) = Ok p <->
  (method = "POST" \/ method = "GET") /\ p = q /\ truthy q = true
  /\ exists k ks, Object_keys q = Some (k :: ks).
Proof.
  unfold validateRequestPayload, missing_or_empty. split.
  - intros H.
    assert (Hm : method = "POST" \/ method = "GET").
    { destruct (String.eqb_spec method "POST"); [auto|].
      destruct (String.eqb_spec method "GET"); [auto|]. discriminate. }
    split; [exact Hm|].
    assert (Hbody : (bad ← (if negb (truthy q) then Ok true
                            else keys ← or_TypeError (Object_keys q);
                                 Ok (length keys =? 0)%nat);
                     if bad : bool then (Throw ETypeError : result value) else Ok q) = Ok p
                    -> p = q /\ truthy q = true
                       /\ exists k ks, Object_keys q = Some (k :: ks)).
    { destruct (truthy q) eqn:Ht; simpl; [|discriminate].
      destruct (Object_keys q) as [[|k ks]|]; simpl; try discriminate.
      intros [= <-]. eauto. }
    apply Hbody.
    destruct Hm as [-> | ->]; simpl in H;
      destruct (truthy q); simpl in *; try discriminate;
      destruct (Object_keys q) as [[|k ks]|]; simpl in *; try discriminate;
      exact H.
  - intros (Hm & -> & Ht & k & ks & Hk).
    rewrite Ht, Hk. destruct Hm as [-> | ->]; reflexivity.
Qed.

(** X11. Normalization throws nothing but an HttpQueryError that is not a
    GraphQL error: status 405 with the [Allow] header for a method other
    than GET and POST, status 500 for a POST without payload, status 400
    in every other case; never a [TypeError]. *)
Theorem normalization_errors (ctx : Context) (e : exn) :
  parseGraphQLRequest JSON_parse ctx = Throw e ->
  exists err,
    e = EHttpQuery err
    /\ isGraphQLError err = false
    /\ ((statusCode err = 405%Z /\ headers err = Some [("Allow", "GET, POST")]
         /\ request_method ctx <> "GET" /\ request_method ctx <> "POST")
        \/ (statusCode err = 500%Z /\ headers err = None /\ request_method ctx = "POST"
            /\ absent_or_empty (fst (parseQueryAndMethod ctx)))
        \/ (statusCode err = 400%Z /\ headers err = None)).
Proof.
  unfold parseGraphQLRequest.
  destruct (parseQueryAndMethod ctx) as [q m] eqn:Hqm.
  assert (Hm : m = request_method ctx).
  { unfold parseQueryAndMethod in Hqm. congruence. }
  destruct (validateRequestPayload (q, m)) as [p|e0] eqn:Hv.
  - apply validateRequestPayload_accepts in Hv.
    destruct Hv as (_ & -> & Ht & _).
    cbn [mbind result_bind]. unfold parseGraphQLRequestFromPayload.
    destruct (truthy_get_prop q "query" Ht) as [qs ->].
    destruct (truthy_get_prop q "extensions" Ht) as [ext ->].
    destruct (truthy_get_prop q "operationName" Ht) as [op ->].
    destruct (truthy_get_prop q "variables" Ht) as [vars ->].
    destruct (truthy_get_prop q "id" Ht) as [id ->].
    cbn [or_TypeError mbind result_bind].
    unfold parse_if_string.
    intros H.
    assert (H400 : forall msg, exists err,
               EHttpQuery (new_HttpQueryError 400 msg None None) = EHttpQuery err
               /\ isGraphQLError err = false
               /\ ((statusCode err = 405%Z /\ headers err = Some [("Allow", "GET, POST")]
                    /\ request_method ctx <> "GET" /\ request_method ctx <> "POST")
                   \/ (statusCode err = 500%Z /\ headers err = None
                       /\ request_method ctx = "POST"
                       /\ absent_or_empty (fst (q, m)))
                   \/ (statusCode err = 400%Z /\ headers err = None))).
    { intros msg. eexists. split; [reflexivity|]. split; [reflexivity|].
      right. right. split; reflexivity. }
    destruct ext as [| |b|n|s|elems named|props|f fnamed];
      try destruct (JSON_parse s);
      cbn [mbind result_bind] in H;
      try (injection H as <-; apply H400);
      (destruct (truthy qs && negb (is_string qs)) eqn:Hq; cbn [mbind result_bind] in H;
       [ destruct (truthy_get_prop qs "kind") as [kind Hk];
         [ apply andb_true_iff in Hq; tauto |];
         rewrite Hk in H; cbn [or_TypeError mbind result_bind] in H;
         destruct (strict_eq_str kind "Document"); cbn [mbind result_bind] in H;
         injection H as <-; apply H400
       | destruct vars as [| |b'|n'|s'|elems' named'|props'|f' fnamed'];
         try destruct (JSON_parse s');
         cbn [mbind result_bind] in H; try discriminate;
         injection H as <-; apply H400 ]).
  - simpl. intros [= <-]. unfold validateRequestPayload in Hv. subst m.
    destruct (String.eqb_spec (request_method ctx) "POST") as [Ep|Ep].
    + destruct (missing_or_empty_total q) as [bad Hbad]. rewrite Hbad in Hv.
      cbn [mbind result_bind] in Hv. destruct bad; [|discriminate].
      injection Hv as <-. eexists. split; [reflexivity|]. split; [reflexivity|].
      right. left. repeat split; [exact Ep|].
      unfold missing_or_empty in Hbad. unfold absent_or_empty. cbn [fst].
      destruct (truthy q) eqn:Ht; [|auto]. cbn in Hbad.
      destruct (Object_keys q) as [[|k ks]|]; cbn in Hbad; try discriminate. auto.
    + destruct (String.eqb_spec (request_method ctx) "GET") as [Eg|Eg].
      * destruct (missing_or_empty_total q) as [bad Hbad]. rewrite Hbad in Hv.
        cbn [mbind result_bind] in Hv. destruct bad; [|discriminate].
        injection Hv as <-. eexists. split; [reflexivity|]. split; [reflexivity|].
        right. right. split; reflexivity.
      * injection Hv as <-. eexists. split; [reflexivity|]. split; [reflexivity|].
        left. repeat split; assumption.
Qed.

(** X12. A string in [extensions] that is not JSON is reported first, whatever
    the rest of the payload holds; a string in [variables] that is not
    JSON is reported once the extensions and the query have passed. *)
Theorem invalid_json_rejected (payload : value) (s : string) :
  JSON_parse s = None ->
  (get_prop payload "extensions" = Some (VStr s) ->
   parseGraphQLRequestFromPayload JSON_parse payload =
     Throw (invalid_json "Extensions are invalid JSON."))
  /\ (get_prop payload "variables" = Some (VStr s) ->
      extensions_unreadable JSON_parse payload = false ->
      (forall q, get_prop payload "query" = Some q ->
                 truthy q = false \/ is_string q = true) ->
      parseGraphQLRequestFromPayload JSON_parse payload =
        Throw (invalid_json "Variables are invalid JSON.")).
Proof.
  intros Hbad. unfold parseGraphQLRequestFromPayload. split.
  - intros Hext.
    assert (Hq : exists q, get_prop payload "query" = Some q).
    { destruct payload; simpl in *; try discriminate; eauto. }
    destruct Hq as [q ->]. rewrite Hext. cbn [or_TypeError mbind result_bind].
    unfold parse_if_string. rewrite Hbad. reflexivity.
  - intros Hvars Hext Hquery. unfold extensions_unreadable in Hext.
    assert (Ht : exists q ext op id,
               get_prop payload "query" = Some q
               /\ get_prop payload "extensions" = Some ext
               /\ get_prop payload "operationName" = Some op
               /\ get_prop payload "id" = Some id).
    { destruct payload; simpl in *; try discriminate; eauto 10. }
    destruct Ht as (q & ext & op & id & Hq & He & Ho & Hi).
    rewrite Hq, He, Ho, Hi, Hvars. rewrite He in Hext.
    cbn [or_TypeError mbind result_bind].
    assert (Hpass : exists ext', parse_if_string JSON_parse ext
                                   "Extensions are invalid JSON." = Ok ext').
    { unfold parse_if_string. destruct ext; eauto.
      destruct (JSON_parse s0); [eauto|discriminate]. }
    destruct Hpass as [ext' ->]. cbn [mbind result_bind].
    assert (Hguard : truthy q && negb (is_string q) = false).
    { destruct (Hquery q Hq) as [-> | ->]; [reflexivity|apply andb_false_r]. }
    rewrite Hguard. cbn [mbind result_bind]. unfold parse_if_string.
    rewrite Hbad. reflexivity.
Qed.

(** X13. What a successful normalization returns: the [query] of the payload,
    which is then falsy or a string; its [operationName] and its [id] as
    they came, unvalidated; its [variables] and its [extensions], parsed
    when they came as strings. *)
Theorem normalized_request_fields (payload : value) (r : GraphQLRequest) :
  parseGraphQLRequestFromPayload JSON_parse payload = Ok r ->
  get_prop payload "query" = Some (query r)
  /\ (truthy (query r) = false \/ is_string (query r) = true)
  /\ get_prop payload "operationName" = Some (operationName r)
  /\ get_prop payload "id" = Some (persistHash r)
  /\ (exists x, get_prop payload "variables" = Some x
                /\ parse_if_string JSON_parse x "Variables are invalid JSON."
                   = Ok (variables r))
  /\ (exists x, get_prop payload "extensions" = Some x
                /\ parse_if_string JSON_parse x "Extensions are invalid JSON."
                   = Ok (extensions r)).
Proof.
  unfold parseGraphQLRequestFromPayload.
  destruct (get_prop payload "query") as [q|]; [|discriminate].
  destruct (get_prop payload "extensions") as [ext|]; [|discriminate].
  cbn [or_TypeError mbind result_bind].
  destruct (parse_if_string JSON_parse ext "Extensions are invalid JSON.")
    as [ext'|] eqn:He; [|discriminate].
  cbn [mbind result_bind].
  destruct (truthy q && negb (is_string q)) eqn:Hq.
  { destruct (get_prop q "kind") as [kind|]; cbn [or_TypeError mbind result_bind];
      [destruct (strict_eq_str kind "Document")|]; discriminate. }
  cbn [mbind result_bind].
  destruct (get_prop payload "operationName") as [op|]; [|discriminate].
  destruct (get_prop payload "variables") as [vars|]; [|discriminate].
  cbn [or_TypeError mbind result_bind].
  destruct (parse_if_string JSON_parse vars "Variables are invalid JSON.")
    as [vars'|] eqn:Hv; [|discriminate].
  cbn [mbind result_bind].
  destruct (get_prop payload "id") as [id|]; [|discriminate].
  cbn [or_TypeError mbind result_bind]. intros [= <-]. cbn.
  repeat split; eauto.
  apply andb_false_iff in Hq. destruct Hq as [Hq|Hq]; [auto|].
  right. apply negb_false_iff. exact Hq.
Qed.

(** X14. Variables sent as a JSON string normalize to the same request as the
    variables sent in structured form: a GET request and a POST request
    for the same persisted query and variables agree after
    normalization. *)
Theorem string_variables_are_parsed (props : list (string * value)) (s : string)
    (v : value) :
  assoc_get "variables" props = Some (VStr s) ->
  JSON_parse s = Some v ->
  is_string v = false ->
  parseGraphQLRequestFromPayload JSON_parse (VObj props) =
  parseGraphQLRequestFromPayload JSON_parse (VObj (assoc_set "variables" v props)).
Proof.
  intros Hvars Hparse Hv. unfold parseGraphQLRequestFromPayload, get_prop.
  rewrite (assoc_get_set_other "variables" "query") by discriminate.
  rewrite (assoc_get_set_other "variables" "extensions") by discriminate.
  rewrite (assoc_get_set_other "variables" "operationName") by discriminate.
  rewrite (assoc_get_set_other "variables" "id") by discriminate.
  rewrite assoc_get_set, Hvars. cbn [or_undefined or_TypeError mbind result_bind].
  destruct (parse_if_string JSON_parse (or_undefined (assoc_get "extensions" props)) _);
    cbn [mbind result_bind]; [|reflexivity].
  destruct (truthy (or_undefined (assoc_get "query" props)) && _);
    cbn [mbind result_bind].
  { destruct (or_undefined (assoc_get "query" props));
      cbn [or_TypeError mbind result_bind]; try reflexivity;
      match goal with |- context [strict_eq_str ?k ?d] => destruct (strict_eq_str k d) end;
      reflexivity. }
  unfold parse_if_string. rewrite Hparse.
  destruct v; try discriminate; reflexivity.
Qed.

End Normalizer.

(* ===================================================================== *)
(** * Further properties of the pipeline                                   *)
(* ===================================================================== *)

Ltac unfold_world :=
  unfold mbind, M_bind, mret, M_ret, result_bind, result_ret, lift, get_ctx, put_ctx;
  cbn beta iota.

Lemma get_keeps_bounds (now : Z) (c c1 : LRUCache) (k : string) (v : value) :
  LRUCache_get now c k = (v, c1) ->
  LRU.ttl (cache c1) = LRU.ttl (cache c)
  /\ LRU.capacity (cache c1) = LRU.capacity (cache c).
Proof.
  destruct c as [c]. unfold LRUCache_get, LRU.get. simpl.
  destruct (LRU.lookup k (LRU.entries c)) as [e|].
  - destruct (LRU.expired now c e); intros [= <- <-]; auto.
  - intros [= <- <-]. auto.
Qed.

(** What was set is read back as long as its time-to-live has not
    elapsed. *)
Lemma get_after_set (t now : Z) (c : LRUCache) (k : string) (v : value) :
  (now - t <= LRU.ttl (cache c))%Z ->
  fst (LRUCache_get now (snd (LRUCache_set t c k v)) k) = v.
Proof.
  intros Hlive. destruct c as [c]. unfold LRUCache_set, LRUCache_get, LRU.set, LRU.get.
  simpl in *.
  assert (Hexp : forall es, LRU.expired now (LRU.with_entries c es) (LRU.mkEntry k v t) = false).
  { intros es. unfold LRU.expired. simpl. apply Z.ltb_ge. exact Hlive. }
  destruct (LRU.lookup k (LRU.entries c)); simpl; unfold LRU.lookup; simpl;
    rewrite String.eqb_refl, Hexp; reflexivity.
Qed.

Section PipelineMore.

Variable JSON_parse : string -> option value.
Variable JSON_stringify : value -> option string.
Variable path : string.
Variable persistMap : gmap string string.

Abbreviation parse := (parseGraphQLRequest JSON_parse).
Abbreviation hash := (generateRequestHash JSON_stringify).
Abbreviation run := (persistCache JSON_parse JSON_stringify path persistMap).

(** X2. A request that fails normalization or fingerprinting fails before
    anything is touched: the error propagates unmodified, the cache is not
    consulted, the next handler is not called, the context is left as it
    came. *)
Theorem failure_before_lookup_is_inert (next : Handler) (w : World) (e : exn) :
  ctx_path (w_ctx w) = path ->
  parse (w_ctx w) = Throw e
  \/ (exists r, parse (w_ctx w) = Ok r
                /\ hash (persistHash r) (variables r) = Throw e) ->
  run next w = (Throw e, w).
Proof.
  intros Hpath H.
  rewrite (run_on_path JSON_parse JSON_stringify path persistMap next w Hpath).
  unfold getQueryFromHash. unfold_world.
  destruct H as [Hparse | (r & Hparse & Hhash)].
  - rewrite Hparse. reflexivity.
  - rewrite Hparse. cbn beta iota. rewrite Hhash. reflexivity.
Qed.

(** X6. On a cache miss, a request without a parsed body cannot be given its
    query: the assignment raises a [TypeError] after the lookup, and the
    next handler is never called. *)
Theorem miss_without_body_raises (next : Handler) (w : World) (r : GraphQLRequest)
    (h : string) :
  ctx_path (w_ctx w) = path ->
  parse (w_ctx w) = Ok r ->
  hash (persistHash r) (variables r) = Ok h ->
  truthy (fst (LRUCache_get (w_now w) (w_cache w) h)) = false ->
  request_body (w_ctx w) = VUndefined \/ request_body (w_ctx w) = VNull ->
  fst (run next w) = Throw ETypeError
  /\ w_ctx (snd (run next w)) = w_ctx w
  /\ w_trace (snd (run next w)) = w_trace w ++ [EvCacheGet h].
Proof.
  intros Hpath Hparse Hhash Hmiss Hbody.
  rewrite (run_on_path JSON_parse JSON_stringify path persistMap next w Hpath).
  destruct (LRUCache_get (w_now w) (w_cache w) h) as [v c1] eqn:Hget.
  cbn [fst] in Hmiss.
  rewrite (getQueryFromHash_lookup JSON_parse JSON_stringify persistMap next
             w r h v c1 Hparse Hhash Hget).
  cbn zeta. rewrite Hmiss.
  assert (Hfw : forwarded persistMap r (w_ctx w) = None).
  { unfold forwarded. destruct (ToString (persistHash r)); [|reflexivity].
    destruct Hbody as [-> | ->]; reflexivity. }
  rewrite Hfw. auto.
Qed.

(** X5. When the next handler fails, its error propagates and nothing is
    written into the cache: a failed execution is never cached. *)
Theorem failed_execution_is_not_cached (next : Handler) (w : World) (r : GraphQLRequest)
    (h : string) (v : value) (c1 : LRUCache) (ctx1 : Context) (e : exn) :
  ctx_path (w_ctx w) = path ->
  parse (w_ctx w) = Ok r ->
  hash (persistHash r) (variables r) = Ok h ->
  LRUCache_get (w_now w) (w_cache w) h = (v, c1) ->
  truthy v = false ->
  forwarded persistMap r (w_ctx w) = Some ctx1 ->
  out_error (next ctx1) = Some e ->
  fst (run next w) = Throw e
  /\ w_trace (snd (run next w)) = w_trace w ++ [EvCacheGet h; EvNext ctx1]
  /\ w_cache (snd (run next w)) = c1
  /\ w_ctx (snd (run next w)) = out_ctx (next ctx1).
Proof.
  intros Hpath Hparse Hhash Hget Hv Hfw Herr.
  rewrite (run_on_path JSON_parse JSON_stringify path persistMap next w Hpath).
  rewrite (getQueryFromHash_miss JSON_parse JSON_stringify persistMap next
             w r h v c1 ctx1 Hparse Hhash Hget Hv Hfw).
  rewrite Herr. auto.
Qed.

(** X3. Whatever the request, the pipeline calls its collaborators at most
    once each and in a fixed order: the lookup, then the next handler, then
    the write; and it writes under the very fingerprint it looked up. *)
Theorem one_request_one_log (next : Handler) (w : World) :
  exists events,
    w_trace (snd (run next w)) = w_trace w ++ events
    /\ one_request_log (w_ctx w) events.
Proof.
  unfold one_request_log.
  destruct (String.eqb_spec path (ctx_path (w_ctx w))) as [Hpath|Hpath].
  2:{ exists [EvNext (w_ctx w)]. split; [|auto].
      unfold persistCache, conditionDo, shouldHandleByPath. unfold_world.
      destruct (String.eqb_spec path (ctx_path (w_ctx w))); [contradiction|].
      unfold call_next. destruct (out_error (next (w_ctx w))); reflexivity. }
  symmetry in Hpath.
  rewrite (run_on_path JSON_parse JSON_stringify path persistMap next w Hpath).
  destruct (parse (w_ctx w)) as [r|e] eqn:Hparse.
  2:{ exists []. split; [|auto]. unfold getQueryFromHash. unfold_world.
      rewrite Hparse. cbn. rewrite app_nil_r. reflexivity. }
  destruct (hash (persistHash r) (variables r)) as [h|e] eqn:Hhash.
  2:{ exists []. split; [|auto]. unfold getQueryFromHash. unfold_world.
      rewrite Hparse. cbn beta iota. rewrite Hhash. cbn. rewrite app_nil_r.
      reflexivity. }
  destruct (LRUCache_get (w_now w) (w_cache w) h) as [v c1] eqn:Hget.
  rewrite (getQueryFromHash_lookup JSON_parse JSON_stringify persistMap next
             w r h v c1 Hparse Hhash Hget).
  cbn zeta.
  destruct (truthy v).
  { exists [EvCacheGet h]. split; [reflexivity|]. right. right. exists h. auto. }
  destruct (forwarded persistMap r (w_ctx w)) as [ctx1|].
  2:{ exists [EvCacheGet h]. split; [reflexivity|]. right. right. exists h. auto. }
  unfold call_next. cbn [w_ctx w_cache w_now w_trace].
  destruct (out_error (next ctx1)).
  { exists [EvCacheGet h; EvNext ctx1]. cbn [snd w_trace]. rewrite <- app_assoc.
    split; [reflexivity|]. right. right. exists h. right. exists ctx1. auto. }
  rewrite cacheAfterExecutionGraphQL_run. unfold populated.
  cbn [snd w_ctx w_cache w_now w_trace].
  match goal with |- context [if ?c then _ else _] => destruct c end; cbn [w_trace].
  - exists [EvCacheGet h; EvNext ctx1; EvCacheSet h (response_body (out_ctx (next ctx1)))].
    rewrite <- !app_assoc. split; [reflexivity|].
    right. right. exists h. right. exists ctx1. right. eauto.
  - exists [EvCacheGet h; EvNext ctx1]. rewrite <- app_assoc.
    split; [reflexivity|]. right. right. exists h. right. exists ctx1. auto.
Qed.

(** The world a populating miss leaves behind: the response of the
    executor is stored under the fingerprint, stamped with the time the
    executor finished. *)
Lemma populating_miss_cache (next : Handler) (w : World) (r : GraphQLRequest)
    (h : string) (v : value) (c1 : LRUCache) (ctx1 : Context) :
  ctx_path (w_ctx w) = path ->
  parse (w_ctx w) = Ok r ->
  hash (persistHash r) (variables r) = Ok h ->
  LRUCache_get (w_now w) (w_cache w) h = (v, c1) ->
  truthy v = false ->
  forwarded persistMap r (w_ctx w) = Some ctx1 ->
  out_error (next ctx1) = None ->
  truthy (persistHash r) = true ->
  response_type (out_ctx (next ctx1)) = "application/json" ->
  w_cache (snd (run next w)) =
  snd (LRUCache_set (w_now w + out_elapsed (next ctx1)) c1 h
                    (response_body (out_ctx (next ctx1)))).
Proof.
  intros Hpath Hparse Hhash Hget Hv Hfw Hdone Hp Hjson.
  rewrite (run_on_path JSON_parse JSON_stringify path persistMap next w Hpath).
  rewrite (getQueryFromHash_miss JSON_parse JSON_stringify persistMap next
             w r h v c1 ctx1 Hparse Hhash Hget Hv Hfw).
  rewrite Hdone. unfold populated, executed. cbn [snd w_ctx w_cache w_now w_trace].
  rewrite Hp, Hjson. reflexivity.
Qed.

(** X7. Write-through and reuse.  After a miss whose execution returned a
    truthy JSON body for a truthy persistHash, a later request on the
    configured path with the same fingerprint (the same persistHash and
    variables, for one), arriving before the time-to-live has elapsed, is
    answered with that body from the cache: its handler is not called and
    nothing is written. *)
Theorem cached_response_is_reused (next1 next2 : Handler) (w1 w2 : World)
    (r1 r2 : GraphQLRequest) (h : string) (v : value) (c1 : LRUCache)
    (ctx1 : Context) :
  ctx_path (w_ctx w1) = path ->
  parse (w_ctx w1) = Ok r1 ->
  hash (persistHash r1) (variables r1) = Ok h ->
  LRUCache_get (w_now w1) (w_cache w1) h = (v, c1) ->
  truthy v = false ->
  forwarded persistMap r1 (w_ctx w1) = Some ctx1 ->
  out_error (next1 ctx1) = None ->
  truthy (persistHash r1) = true ->
  response_type (out_ctx (next1 ctx1)) = "application/json" ->
  truthy (response_body (out_ctx (next1 ctx1))) = true ->
  w_cache w2 = w_cache (snd (run next1 w1)) ->
  ctx_path (w_ctx w2) = path ->
  parse (w_ctx w2) = Ok r2 ->
  hash (persistHash r2) (variables r2) = Ok h ->
  (w_now w2 - (w_now w1 + out_elapsed (next1 ctx1)) <= LRU.ttl (cache (w_cache w1)))%Z ->
  fst (run next2 w2) = Ok tt
  /\ response_body (w_ctx (snd (run next2 w2))) = response_body (out_ctx (next1 ctx1))
  /\ w_trace (snd (run next2 w2)) = w_trace w2 ++ [EvCacheGet h].
Proof.
  intros Hpath Hparse Hhash Hget Hv Hfw Hdone Hp Hjson Hbody Hcache Hpath2 Hparse2
         Hhash2 Hlive.
  rewrite (populating_miss_cache next1 w1 r1 h v c1 ctx1
             Hpath Hparse Hhash Hget Hv Hfw Hdone Hp Hjson) in Hcache.
  destruct (get_keeps_bounds _ _ _ _ _ Hget) as [Httl _]. rewrite <- Httl in Hlive.
  pose proof (get_after_set _ _ c1 h (response_body (out_ctx (next1 ctx1))) Hlive)
    as Hread.
  rewrite <- Hcache in Hread.
  destruct (LRUCache_get (w_now w2) (w_cache w2) h) as [v2 c2] eqn:Hget2.
  cbn [fst] in Hread. subst v2.
  rewrite (run_on_path JSON_parse JSON_stringify path persistMap next2 w2 Hpath2).
  rewrite (getQueryFromHash_lookup JSON_parse JSON_stringify persistMap next2
             w2 r2 h _ c2 Hparse2 Hhash2 Hget2).
  cbn zeta. rewrite Hbody. auto.
Qed.

(** X8. Expiry.  Such a later request arriving after the time-to-live has
    elapsed finds nothing: the lookup is a miss and the next handler runs
    again, on the request with its query resolved. *)
Theorem expired_response_is_refetched (next1 next2 : Handler) (w1 w2 : World)
    (r1 r2 : GraphQLRequest) (h : string) (v : value) (c1 : LRUCache)
    (ctx1 ctx2 : Context) :
  ctx_path (w_ctx w1) = path ->
  parse (w_ctx w1) = Ok r1 ->
  hash (persistHash r1) (variables r1) = Ok h ->
  LRUCache_get (w_now w1) (w_cache w1) h = (v, c1) ->
  truthy v = false ->
  forwarded persistMap r1 (w_ctx w1) = Some ctx1 ->
  out_error (next1 ctx1) = None ->
  truthy (persistHash r1) = true ->
  response_type (out_ctx (next1 ctx1)) = "application/json" ->
  w_cache w2 = w_cache (snd (run next1 w1)) ->
  ctx_path (w_ctx w2) = path ->
  parse (w_ctx w2) = Ok r2 ->
  hash (persistHash r2) (variables r2) = Ok h ->
  forwarded persistMap r2 (w_ctx w2) = Some ctx2 ->
  (LRU.ttl (cache (w_cache w1)) < w_now w2 - (w_now w1 + out_elapsed (next1 ctx1)))%Z ->
  exists rest,
    w_trace (snd (run next2 w2)) = w_trace w2 ++ EvCacheGet h :: EvNext ctx2 :: rest.
Proof.
  intros Hpath Hparse Hhash Hget Hv Hfw Hdone Hp Hjson Hcache Hpath2 Hparse2
         Hhash2 Hfw2 Hlate.
  rewrite (populating_miss_cache next1 w1 r1 h v c1 ctx1
             Hpath Hparse Hhash Hget Hv Hfw Hdone Hp Hjson) in Hcache.
  destruct (get_keeps_bounds _ _ _ _ _ Hget) as [Httl _]. rewrite <- Httl in Hlate.
  destruct (expired_entry_is_absent c1 h (response_body (out_ctx (next1 ctx1)))
              _ _ Hlate) as [_ Hgone].
  cbn zeta in Hgone. rewrite <- Hcache in Hgone.
  destruct (LRUCache_get (w_now w2) (w_cache w2) h) as [v2 c2] eqn:Hget2.
  cbn [fst] in Hgone. subst v2.
  rewrite (run_on_path JSON_parse JSON_stringify path persistMap next2 w2 Hpath2).
  rewrite (getQueryFromHash_miss JSON_parse JSON_stringify persistMap next2
             w2 r2 h VUndefined c2 ctx2 Hparse2 Hhash2 Hget2 eq_refl Hfw2).
  destruct (out_error (next2 ctx2)); cbn [snd].
  - exists []. reflexivity.
  - unfold populated, executed. cbn [w_ctx w_cache w_now w_trace].
    match goal with |- context [if ?c then _ else _] => destruct c end;
      cbn [w_trace]; rewrite <- ?app_assoc; eexists; reflexivity.
Qed.

End PipelineMore.

(** X1. The middleware built from a configuration leaves every request on
    another path than the configured one ([/graphql] when none is given)
    alone: the request goes to the next handler as it came, the result is
    the handler's, and the cache is neither read nor written.  Paths are
    compared as strings, exactly. *)
Theorem other_paths_bypass
    (JSON_parse : string -> option value) (JSON_stringify : value -> option string)
    (config : PersistCacheConfig) (next : Handler) (w : World) :
  ctx_path (w_ctx w) <> default "/graphql" (cfg_path config) ->
  exists middleware,
    persistCacheGenerate JSON_parse JSON_stringify (Some config) = Ok middleware
    /\ middleware next w = call_next next w
    /\ w_ctx (snd (middleware next w)) = out_ctx (next (w_ctx w))
    /\ w_cache (snd (middleware next w)) = w_cache w
    /\ w_trace (snd (middleware next w)) = w_trace w ++ [EvNext (w_ctx w)].
Proof.
  intros Hpath. eexists. split; [reflexivity|]. cbn [mbind option_bind from_option].
  destruct (other_path_bypasses JSON_parse JSON_stringify _ (cfg_map config) next w Hpath)
    as (Hrun & Htrace & Hcache).
  split; [exact Hrun|]. split; [|split; [exact Hcache|exact Htrace]].
  rewrite Hrun. unfold call_next. destruct (out_error (next (w_ctx w))); reflexivity.
Qed.

(* ===================================================================== *)
(** * Further properties of the fingerprint and of the cache               *)
(* ===================================================================== *)

Lemma hex_digit_ok (d : Z) :
  (0 <= d < 16)%Z -> is_hex_lower (hex_digit d) = true.
Proof.
  intros H. unfold hex_digit.
  assert (Hn : (Z.to_nat d < 16)%nat) by lia.
  revert Hn. generalize (Z.to_nat d). intros n Hn.
  do 16 (destruct n as [|n]; [reflexivity|]). lia.
Qed.

Lemma hex_lower_ok (bs : list Z) :
  Forall (fun b => (0 <= b < 256)%Z) bs ->
  forallb is_hex_lower (list_ascii_of_string (hex_lower bs)) = true.
Proof.
  induction 1 as [|b bs Hb _ IH]; [reflexivity|].
  cbn [hex_lower list_ascii_of_string forallb]. rewrite IH.
  rewrite !hex_digit_ok; [reflexivity| |].
  - apply Z.mod_pos_bound. lia.
  - split; [apply Z.div_pos; lia|apply Z.div_lt_upper_bound; lia].
Qed.

Lemma be_bytes_range (n : nat) (x : Z) :
  Forall (fun b => (0 <= b < 256)%Z) (SHA256.be_bytes n x).
Proof.
  induction n as [|n IH]; simpl; constructor; [|exact IH].
  apply Z.mod_pos_bound. lia.
Qed.

Lemma hash_bytes_range (msg : list Z) :
  Forall (fun b => (0 <= b < 256)%Z) (SHA256.hash msg).
Proof.
  unfold SHA256.hash. induction (fold_left SHA256.compress _ SHA256.H_init) as [|x l IH].
  - constructor.
  - cbn [flat_map]. apply Forall_app. split; [apply be_bytes_range|exact IH].
Qed.

(** X15. Every fingerprint [generateRequestHash] returns is a text of exactly
    sixty-four lowercase hexadecimal digits, whatever the id and the
    variables. *)
Theorem generateRequestHash_format (JSON_stringify : value -> option string)
    (queryHashId queryVariables : value) (h : string) :
  generateRequestHash JSON_stringify queryHashId queryVariables = Ok h ->
  String.length h = 64%nat
  /\ forallb is_hex_lower (list_ascii_of_string h) = true.
Proof.
  unfold generateRequestHash. intros H.
  assert (Hd : exists s, h = hex_lower (SHA256.hash (utf8_bytes s))).
  { destruct (negb (truthy queryVariables) || negb (isObject queryVariables));
      [|destruct (JSON_stringify queryVariables); [|discriminate]];
      cbn [mbind result_bind] in H;
      (destruct (ToString queryHashId); [|discriminate]);
      cbn [or_TypeError mbind result_bind] in H; injection H as <-; eauto. }
  destruct Hd as [s ->]. split.
  - rewrite hex_lower_length, hash_length. reflexivity.
  - apply hex_lower_ok, hash_bytes_range.
Qed.

Lemma string_app_empty (s : string) : (s ++ "")%string = s.
Proof.
  induction s as [|c s IH]; [reflexivity|].
  change (String c (s ++ "")%string = String c s). f_equal. exact IH.
Qed.

(** X16. What the fingerprint does not tell apart.  Variables that are not an
    object (a number, a string, a boolean, [null]) count as no variables.
    The id counts through its string form only, so the number 5 and the
    text "5", the number [10^21] and the text "1e+21", or an absent id and
    the text "undefined", give the same fingerprint.  And as the id and
    the serialized variables are concatenated without a separator, an id
    followed by variables gives the fingerprint of the longer id that
    spells both out, without variables. *)
Theorem fingerprint_collisions (JSON_stringify : value -> option string) :
  (forall id v, isObject v = false ->
     generateRequestHash JSON_stringify id v =
     generateRequestHash JSON_stringify id VUndefined)
  /\ (forall id id' v, ToString id = ToString id' ->
        generateRequestHash JSON_stringify id v =
        generateRequestHash JSON_stringify id' v)
  /\ (forall id v s, isObject v = true -> JSON_stringify v = Some s ->
        generateRequestHash JSON_stringify (VStr id) v =
        generateRequestHash JSON_stringify (VStr (id ++ s)) VUndefined).
Proof.
  unfold generateRequestHash. repeat split.
  - intros id v Hv. rewrite Hv. cbn. rewrite orb_true_r. reflexivity.
  - intros id id' v Hid. rewrite Hid. reflexivity.
  - intros id v s Hobj Hs. rewrite Hobj, Hs.
    assert (Ht : truthy v = true) by (destruct v; simpl in *; congruence).
    rewrite Ht.
    cbn [negb orb mbind result_bind or_TypeError ToString truthy isObject].
    rewrite string_app_empty. reflexivity.
Qed.

Lemma after_calls_ttl (calls : list (Z * cache_call)) (c : LRUCache) :
  LRU.ttl (cache (after_calls c calls)) = LRU.ttl (cache c).
Proof.
  revert c. induction calls as [|[now call] calls IH]; intros c; [reflexivity|].
  rewrite after_calls_cons, IH. destruct c as [c].
  destruct call as [k|k v|k]; unfold after_call, LRUCache_get, LRUCache_set, LRU.get, LRU.set;
    simpl; try reflexivity.
  - destruct (LRU.lookup k (LRU.entries c)) as [e|]; [|reflexivity].
    destruct (LRU.expired now c e); reflexivity.
  - destruct (LRU.lookup k (LRU.entries c)); reflexivity.
Qed.

(** X17. A cache built without options, or with options that give no
    [maxAge], keeps what is set for one hour, whatever was done with it
    before: up to 3 600 000 ms after the [set] the value is read back, and
    later the key is absent. *)
Theorem default_cache_keeps_one_hour (options : option Options)
    (calls : list (Z * cache_call)) (k : string) (v : value) (t t' : Z) :
  options = None \/ (exists m, options = Some (mkOptions m None)) ->
  let c := snd (LRUCache_set t (after_calls (getCache options) calls) k v) in
  ((t' - t <= 3600000)%Z ->
     fst (LRUCache_get t' c k) = v /\ LRUCache_has t' c k = true)
  /\ ((3600000 < t' - t)%Z ->
     fst (LRUCache_get t' c k) = VUndefined /\ LRUCache_has t' c k = false).
Proof.
  intros Hopt c.
  assert (Httl : LRU.ttl (cache (after_calls (getCache options) calls)) = 3600000%Z).
  { rewrite after_calls_ttl. destruct Hopt as [-> | [m ->]]; reflexivity. }
  split.
  - intros Hlive. rewrite <- Httl in Hlive. split.
    + apply get_after_set. exact Hlive.
    + unfold c. destruct (after_calls (getCache options) calls) as [c0].
      unfold LRUCache_has, LRUCache_set, LRU.has, LRU.set. simpl in *.
      assert (Hexp : forall es,
                 LRU.expired t' (LRU.with_entries c0 es) (LRU.mkEntry k v t) = false).
      { intros es. unfold LRU.expired. simpl. apply Z.ltb_ge. exact Hlive. }
      destruct (LRU.lookup k (LRU.entries c0)); simpl; unfold LRU.lookup; simpl;
        rewrite String.eqb_refl, Hexp; reflexivity.
  - intros Hlate. rewrite <- Httl in Hlate.
    destruct (expired_entry_is_absent _ k v t t' Hlate) as [Hhas Hget]. auto.
Qed.

(* ===================================================================== *)
(** * The further properties on the scenario                               *)
(* ===================================================================== *)

Lemma other_paths_bypass_witness :
  exists middleware,
    persistCacheGenerate RefJSON.parse RefJSON.stringify (Some (mkConfig None scenario_map))
      = Ok middleware
    /\ w_trace (snd (middleware executor
                       (start (getCache None)
                          (mkContext "/graphql/" "POST" (VObj [("id", VStr "abc123")])
                                     (VObj []) VUndefined VUndefined "")))) =
       [EvNext (mkContext "/graphql/" "POST" (VObj [("id", VStr "abc123")])
                          (VObj []) VUndefined VUndefined "")].
Proof.
  destruct (other_paths_bypass RefJSON.parse RefJSON.stringify
              (mkConfig None scenario_map) executor
              (start (getCache None)
                 (mkContext "/graphql/" "POST" (VObj [("id", VStr "abc123")])
                            (VObj []) VUndefined VUndefined "")))
    as (middleware & Hbuilt & _ & _ & _ & Htrace).
  - discriminate.
  - exists middleware. split; [exact Hbuilt|exact Htrace].
Defined.

Lemma failure_before_lookup_is_inert_witness :
  scenario (start (getCache None) (put (VObj [("id", VStr "abc123")]))) =
  (Throw (EHttpQuery (mkHttpQueryError 405
            "Apollo Server supports only GET/POST requests." false
            (Some [("Allow", "GET, POST")]))),
   start (getCache None) (put (VObj [("id", VStr "abc123")]))).
Proof.
  apply (failure_before_lookup_is_inert RefJSON.parse RefJSON.stringify "/graphql"
           scenario_map executor).
  - reflexivity.
  - left. reflexivity.
Defined.

Lemma falsy_persistHash_never_written_witness :
  exists events,
    w_trace (snd (scenario (start (getCache None) plain))) = [] ++ events
    /\ forall k b, ~ In (EvCacheSet k b) events.
Proof.
  apply (falsy_persistHash_never_written RefJSON.parse RefJSON.stringify "/graphql"
           scenario_map executor (start (getCache None) plain)
           (mkGraphQLRequest (VStr "{ hello }") VUndefined VUndefined VUndefined VUndefined));
    reflexivity.
Defined.

Lemma failed_execution_is_not_cached_witness :
  let out :=
    persistCache RefJSON.parse RefJSON.stringify "/graphql" scenario_map
                 failing_executor first_request in
  fst out = Throw (EError "resolver failed")
  /\ w_trace (snd out) = [EvCacheGet (fingerprint "abc123" ""); EvNext persisted_resolved]
  /\ w_cache (snd out) = getCache None.
Proof.
  destruct (failed_execution_is_not_cached RefJSON.parse RefJSON.stringify "/graphql"
              scenario_map failing_executor first_request persisted_parsed
              (fingerprint "abc123" "") VUndefined (getCache None) persisted_resolved
              (EError "resolver failed"))
    as (Hthrown & Htrace & Hcache & _).
  - reflexivity.
  - reflexivity.
  - vm_compute. reflexivity.
  - vm_compute. reflexivity.
  - reflexivity.
  - vm_compute. reflexivity.
  - reflexivity.
  - cbn zeta. auto.
Defined.

Lemma miss_without_body_raises_witness :
  let w := start (getCache None) (get_without_body (VObj [("id", VStr "abc123")])) in
  fst (scenario w) = Throw ETypeError
  /\ w_trace (snd (scenario w)) = [EvCacheGet (fingerprint "abc123" "")].
Proof.
  destruct (miss_without_body_raises RefJSON.parse RefJSON.stringify "/graphql"
              scenario_map executor
              (start (getCache None) (get_without_body (VObj [("id", VStr "abc123")])))
              persisted_parsed (fingerprint "abc123" ""))
    as (Hthrown & _ & Htrace).
  - reflexivity.
  - reflexivity.
  - vm_compute. reflexivity.
  - reflexivity.
  - left. reflexivity.
  - cbn zeta. auto.
Defined.

Lemma cached_response_is_reused_witness :
  fst (scenario second_request) = Ok tt
  /\ response_body (w_ctx (snd (scenario second_request))) = hello_world
  /\ w_trace (snd (scenario second_request)) = [EvCacheGet (fingerprint "abc123" "")].
Proof.
  apply (cached_response_is_reused RefJSON.parse RefJSON.stringify "/graphql"
           scenario_map executor executor first_request second_request
           persisted_parsed persisted_parsed (fingerprint "abc123" "") VUndefined
           (getCache None) persisted_resolved);
    try reflexivity; try (vm_compute; reflexivity).
  vm_compute. discriminate.
Defined.

Lemma expired_response_is_refetched_witness :
  exists rest,
    w_trace (snd (scenario late_request)) =
      [] ++ EvCacheGet (fingerprint "abc123" "") :: EvNext persisted_resolved :: rest.
Proof.
  apply (expired_response_is_refetched RefJSON.parse RefJSON.stringify "/graphql"
           scenario_map executor executor first_request late_request
           persisted_parsed persisted_parsed (fingerprint "abc123" "") VUndefined
           (getCache None) persisted_resolved persisted_resolved);
    try reflexivity; try (vm_compute; reflexivity).
Defined.

Lemma same_pair_same_key_witness :
  exists rest1 rest2,
    w_trace (snd (scenario first_request)) =
      [] ++ EvCacheGet (fingerprint "abc123" "") :: rest1
    /\ w_trace (snd (scenario (start (getCache None) persisted_get))) =
      [] ++ EvCacheGet (fingerprint "abc123" "") :: rest2.
Proof.
  apply (same_pair_same_key RefJSON.parse RefJSON.stringify "/graphql"
           scenario_map executor first_request (start (getCache None) persisted_get)
           persisted_parsed persisted_parsed (fingerprint "abc123" ""));
    try reflexivity; vm_compute; reflexivity.
Defined.

Lemma normalization_errors_witness :
  exists err,
    EHttpQuery (mkHttpQueryError 400 "GET query missing." false None) = EHttpQuery err
    /\ isGraphQLError err = false.
Proof.
  destruct (normalization_errors RefJSON.parse (get_without_body (VObj []))
              (EHttpQuery (mkHttpQueryError 400 "GET query missing." false None)))
    as (err & Herr & Hflag & _).
  - reflexivity.
  - exists err. auto.
Defined.

Lemma invalid_json_rejected_witness :
  parseGraphQLRequestFromPayload RefJSON.parse
    (VObj [("id", VStr "abc123"); ("extensions", VStr "{not json")]) =
    Throw (invalid_json "Extensions are invalid JSON.")
  /\ parseGraphQLRequestFromPayload RefJSON.parse
       (VObj [("id", VStr "abc123"); ("variables", VStr "{not json")]) =
     Throw (invalid_json "Variables are invalid JSON.").
Proof.
  assert (Hbad : RefJSON.parse "{not json" = None) by reflexivity.
  split.
  - apply (proj1 (invalid_json_rejected RefJSON.parse
                    (VObj [("id", VStr "abc123"); ("extensions", VStr "{not json")])
                    "{not json" Hbad)).
    reflexivity.
  - apply (proj2 (invalid_json_rejected RefJSON.parse
                    (VObj [("id", VStr "abc123"); ("variables", VStr "{not json")])
                    "{not json" Hbad)).
    + reflexivity.
    + reflexivity.
    + intros q [= <-]. left. reflexivity.
Defined.

Lemma normalized_request_fields_witness :
  get_prop (VObj [("id", VStr "abc123")]) "id" = Some (persistHash persisted_parsed)
  /\ (truthy (query persisted_parsed) = false \/ is_string (query persisted_parsed) = true).
Proof.
  destruct (normalized_request_fields RefJSON.parse (VObj [("id", VStr "abc123")])
              persisted_parsed)
    as (_ & Hquery & _ & Hid & _).
  - reflexivity.
  - auto.
Defined.

Lemma string_variables_are_parsed_witness :
  parseGraphQLRequestFromPayload RefJSON.parse
    (VObj [("id", VStr "abc123");
           ("variables", VStr (RefJSON.text (VObj [("x", VNum 1)])))]) =
  parseGraphQLRequestFromPayload RefJSON.parse
    (VObj (assoc_set "variables" (VObj [("x", VNum 1)])
             [("id", VStr "abc123");
              ("variables", VStr (RefJSON.text (VObj [("x", VNum 1)])))])).
Proof.
  apply (string_variables_are_parsed RefJSON.parse
           [("id", VStr "abc123");
            ("variables", VStr (RefJSON.text (VObj [("x", VNum 1)])))]
           (RefJSON.text (VObj [("x", VNum 1)])) (VObj [("x", VNum 1)]));
    reflexivity.
Defined.

Lemma generateRequestHash_format_witness :
  String.length (fingerprint "abc123" "") = 64%nat
  /\ forallb is_hex_lower (list_ascii_of_string (fingerprint "abc123" "")) = true.
Proof.
  apply (generateRequestHash_format RefJSON.stringify (VStr "abc123") VUndefined).
  reflexivity.
Defined.

Lemma fingerprint_collisions_witness :
  generateRequestHash RefJSON.stringify (VStr "abc123") (VNum 5) =
    generateRequestHash RefJSON.stringify (VStr "abc123") VUndefined
  /\ generateRequestHash RefJSON.stringify (VNum 5) VUndefined =
     generateRequestHash RefJSON.stringify (VStr "5") VUndefined
  /\ generateRequestHash RefJSON.stringify (VNum (10 ^ 21)) VUndefined =
     generateRequestHash RefJSON.stringify (VStr "1e+21") VUndefined
  /\ generateRequestHash RefJSON.stringify VUndefined VUndefined =
     generateRequestHash RefJSON.stringify (VStr "undefined") VUndefined
  /\ generateRequestHash RefJSON.stringify (VStr "abc123") (VObj [("x", VNum 1)]) =
     generateRequestHash RefJSON.stringify
       (VStr ("abc123" ++ RefJSON.text (VObj [("x", VNum 1)]))) VUndefined.
Proof.
  destruct (fingerprint_collisions RefJSON.stringify) as (Hscalar & Hid & Hconcat).
  split; [|split; [|split; [|split]]].
  - apply Hscalar. reflexivity.
  - apply Hid. reflexivity.
  - apply Hid. vm_compute. reflexivity.
  - apply Hid. reflexivity.
  - apply Hconcat; reflexivity.
Defined.

Lemma default_cache_keeps_one_hour_witness :
  let c := snd (LRUCache_set 5 (after_calls (getCache None) []) "key0" hello_world) in
  fst (LRUCache_get 3600005 c "key0") = hello_world
  /\ LRUCache_has 3600005 c "key0" = true.
Proof.
  destruct (default_cache_keeps_one_hour None [] "key0" hello_world 5 3600005)
    as [Hlive _].
  - left. reflexivity.
  - apply Hlive. lia.
Defined.

(* ===================================================================== *)
(** * The variant in [src/index.ts]                                        *)
(* ===================================================================== *)

Section IndexVariant.

Variable JSON_stringify : value -> option string.
Variable persistMap : gmap string string.
Variable next : Handler.

Abbreviation legacy := (Index.getQueryFromHash JSON_stringify next persistMap).

Lemma index_fingerprint :
  Index.generateRequestHash JSON_stringify (VNum 0) VUndefined = Ok (fingerprint "0" "").
Proof. reflexivity. Qed.

Lemma execute_and_cache_run (ids : option (value * string)) (w : World) :
  (forall id h, ids = Some (id, h) -> truthy id = false) ->
  Index.execute_and_cache next ids w =
  (match out_error (next (w_ctx w)) with None => Ok tt | Some e => Throw e end,
   mkWorld (out_ctx (next (w_ctx w))) (w_cache w) (w_now w + out_elapsed (next (w_ctx w)))
           (w_trace w ++ [EvNext (w_ctx w)])).
Proof.
  intros Hfalsy. unfold Index.execute_and_cache, call_next. unfold_world.
  destruct (out_error (next (w_ctx w))); [reflexivity|].
  destruct ids as [[id h]|]; [|reflexivity].
  rewrite (Hfalsy id h eq_refl). reflexivity.
Qed.

(** X18. The variant of [src/index.ts] never writes into the cache: the
    id it fingerprints is the number 0, which is falsy, so the write
    after execution is never reached.  A cache that is empty stays empty,
    whatever the request and whatever the next handler returns. *)
Theorem index_variant_never_caches (w : World) :
  (exists events,
     w_trace (snd (legacy w)) = w_trace w ++ events
     /\ forall k b, ~ In (EvCacheSet k b) events)
  /\ (LRU.entries (cache (w_cache w)) = [] ->
      LRU.entries (cache (w_cache (snd (legacy w)))) = []).
Proof.
  unfold Index.getQueryFromHash. unfold_world.
  destruct (Index.has_request_body (w_ctx w)).
  2:{ rewrite execute_and_cache_run by discriminate. cbn [snd w_trace w_cache].
      split; [|auto]. exists [EvNext (w_ctx w)]. split; [reflexivity|].
      intros k b [H|[]]. discriminate. }
  rewrite index_fingerprint. cbn beta iota. unfold Index.cache_has. cbn beta iota.
  destruct (LRUCache_has (w_now w) (w_cache w) (fingerprint "0" "")) eqn:Hhas.
  - unfold cache_get, log.
    destruct (LRUCache_get (w_now w) (w_cache w) (fingerprint "0" "")) as [v c1] eqn:Hget.
    cbn [snd w_trace w_cache w_ctx w_now]. split.
    + exists [EvCacheGet (fingerprint "0" "")]. split; [reflexivity|].
      intros k b [H|[]]. discriminate.
    + intros Hempty. destruct (w_cache w) as [c]. unfold LRUCache_has, LRU.has in Hhas.
      simpl in *. rewrite Hempty in Hhas. discriminate.
  - unfold persistMap_at, or_TypeError. cbn [ToString mbind result_bind]. cbn beta iota.
    destruct (set_prop (request_body (w_ctx w)) "query" _) as [body|].
    + cbn beta iota. rewrite execute_and_cache_run by (intros id h [= <- _]; reflexivity).
      cbn [snd w_trace w_cache w_ctx]. split; [|auto].
      eexists. split; [reflexivity|]. intros k b [H|[]]. discriminate.
    + cbn [snd w_trace w_cache]. split; [|auto].
      exists []. rewrite app_nil_r. split; [reflexivity|]. intros k b [].
Qed.

(** X19. The variant of [src/index.ts] does not read the request's id:
    for every request with a parsed body object, when the cache holds
    nothing under the fingerprint of "0", the query of the body is
    overwritten with the map's entry for the key "0" ([undefined] when
    there is none), the next handler is called once, on the context that
    carries the overwritten body and is otherwise the request's, and its
    outcome is the outcome of the middleware. *)
Theorem index_variant_ignores_id (w : World) :
  isObject (request_body (w_ctx w)) = true ->
  LRUCache_has (w_now w) (w_cache w) (fingerprint "0" "") = false ->
  exists body ctx1,
    set_prop (request_body (w_ctx w)) "query"
      (match persistMap !! "0" with Some text => VStr text | None => VUndefined end)
    = Some body
    /\ request_body ctx1 = body
    /\ get_prop (request_body ctx1) "query" =
       Some (match persistMap !! "0" with Some text => VStr text | None => VUndefined end)
    /\ (forall name, name <> "query" ->
          get_prop (request_body ctx1) name = get_prop (request_body (w_ctx w)) name)
    /\ ctx1 = mkContext (ctx_path (w_ctx w)) (request_method (w_ctx w)) body
                        (request_query (w_ctx w)) (req_body (w_ctx w))
                        (response_body (w_ctx w)) (response_type (w_ctx w))
    /\ legacy w =
       (match out_error (next ctx1) with
        | None => Ok tt
        | Some e => Throw e
        end,
        mkWorld (out_ctx (next ctx1)) (w_cache w)
                (w_now w + out_elapsed (next ctx1))
                (w_trace w ++ [EvNext ctx1])).
Proof.
  intros Hobj Hhas.
  assert (Hread : persistMap_read persistMap "0" =
                  match persistMap !! "0" with Some text => VStr text | None => VUndefined end).
  { unfold persistMap_read. destruct (persistMap !! "0"); reflexivity. }
  assert (Hbody : exists body,
             set_prop (request_body (w_ctx w)) "query" (persistMap_read persistMap "0")
             = Some body).
  { destruct (request_body (w_ctx w)); simpl in *; try discriminate; eauto. }
  destruct Hbody as [body Hset].
  exists body, (with_request_body (w_ctx w) body).
  split; [rewrite <- Hread; exact Hset|].
  split; [reflexivity|].
  split; [rewrite <- Hread; exact (get_set_prop _ _ _ _ Hset)|].
  split.
  { intros name Hne. apply (get_set_prop_other _ _ _ _ _ Hset). congruence. }
  split; [reflexivity|].
  unfold Index.getQueryFromHash. unfold_world.
  assert (Hpresent : Index.has_request_body (w_ctx w) = true).
  { unfold Index.has_request_body. destruct (request_body (w_ctx w)); simpl in *;
      congruence. }
  rewrite Hpresent, index_fingerprint. cbn beta iota.
  unfold Index.cache_has. cbn beta iota. rewrite Hhas.
  unfold persistMap_at, or_TypeError. cbn [ToString mbind result_bind]. cbn beta iota.
  change (Number.toString 0) with "0". rewrite Hset. cbn beta iota.
  rewrite execute_and_cache_run by (intros id h [= <- _]; reflexivity).
  reflexivity.
Qed.

End IndexVariant.

Lemma index_variant_ignores_id_witness :
  w_trace (snd (Index.getQueryFromHash RefJSON.stringify executor scenario_map
                  first_request)) =
  [EvNext (post (VObj [("id", VStr "abc123"); ("query", VUndefined)]))].
Proof.
  destruct (index_variant_ignores_id RefJSON.stringify scenario_map executor first_request)
    as (body & ctx1 & Hset & _ & _ & _ & Hctx & Hrun).
  - reflexivity.
  - reflexivity.
  - assert (Eb : body = VObj [("id", VStr "abc123"); ("query", VUndefined)]).
    { vm_compute in Hset. injection Hset as <-. reflexivity. }
    rewrite Eb in Hctx. rewrite Hrun, Hctx. reflexivity.
Defined.
